(** * Echo Journal: capture / transcribe / visualise pipeline

    A shallow embedding of [Assignment3/EchoJournal/EchoJournal.py] (and of
    the worker of [Assignment3/TBD/app.py]) together with the properties of
    its queues, transcription worker, emotion classifier, two-column layout
    engine and lifecycle state machine.

    Conventions of the embedding
    - Python [int] is [Z]; [//] is [Z.div] (floor division for a positive
      divisor); [len] is [Z.of_nat] of the length.
    - Python [str] is [string]; the text is taken to be ASCII, so
      [str.isspace], [str.lower] act on the ASCII range only.
    - [total_chars / TARGET_CHARS_FOR_RELEASE] is a true division; it is
      modelled in exact rationals [Q] (float rounding is abstracted).
    - Threads are modelled by step functions over a record of the shared
      globals; a call that waits (a [get] on an empty queue without a
      timeout) leaves the state as it is. *)

From Stdlib Require Import ZArith QArith Qminmax Lia List String Ascii Bool.
From Stdlib Require Import Qround.
From stdpp Require Import base strings gmap list.

Local Open Scope Z_scope.

(* ===================================================================== *)
(** ** Python strings *)
(* ===================================================================== *)

Module PyStr.

(** [str.isspace] on one ASCII character: TAB..CR, FS..US and the space. *)
Definition isspace (c : ascii) : bool :=
  let n := nat_of_ascii c in
  (((9 <=? n) && (n <=? 13)) || ((28 <=? n) && (n <=? 32)))%nat.

(** [str.lower] on one ASCII character. *)
Definition lower_ascii (c : ascii) : ascii :=
  let n := nat_of_ascii c in
  if ((65 <=? n) && (n <=? 90))%nat then ascii_of_nat (n + 32) else c.

Fixpoint lower (s : string) : string :=
  match s with
  | EmptyString => EmptyString
  | String c r => String (lower_ascii c) (lower r)
  end.

Fixpoint lstrip (s : string) : string :=
  match s with
  | EmptyString => EmptyString
  | String c r => if isspace c then lstrip r else s
  end.

Fixpoint rstrip (s : string) : string :=
  match s with
  | EmptyString => EmptyString
  | String c r =>
      match rstrip r with
      | EmptyString => if isspace c then EmptyString else String c EmptyString
      | r' => String c r'
      end
  end.

(** [s.strip()] *)
Definition strip (s : string) : string := rstrip (lstrip s).

(** [''.join(parts)] *)
Definition join (parts : list string) : string :=
  fold_right String.append EmptyString parts.

(** [len(s)] *)
Definition len (s : string) : Z := Z.of_nat (String.length s).

(** truth value of a string: [if s:] *)
Definition truthy (s : string) : bool :=
  match s with EmptyString => false | _ => true end.

(** [s.split()]: maximal runs of non-space characters, in order. [cur] is
    the run being read, last character first. *)
Fixpoint split_go (cur : list ascii) (s : string) : list string :=
  match s with
  | EmptyString =>
      match cur with
      | [] => []
      | _ => [string_of_list_ascii (rev cur)]
      end
  | String c r =>
      if isspace c then
        match cur with
        | [] => split_go [] r
        | _ => string_of_list_ascii (rev cur) :: split_go [] r
        end
      else split_go (c :: cur) r
  end.

Definition split (s : string) : list string := split_go [] s.

End PyStr.

(* ===================================================================== *)
(** ** [queue.Queue] *)
(* ===================================================================== *)

Module Queue.

(** [queue.Queue(maxsize)]: [maxsize <= 0] means that the size is not
    limited; [queue.Queue()] has [maxsize = 0]. *)
Record t (A : Type) : Type := mk { maxsize : Z; items : list A }.
Arguments mk {A} _ _.
Arguments maxsize {A} _.
Arguments items {A} _.

Inductive exn : Type := Empty | ValueError.

(** What a [get] does: it returns an item, raises, or waits for a producer. *)
Inductive get_result (A : Type) : Type :=
| Got (x : A) (q : t A)
| Raises (e : exn)
| Waits.
Arguments Got {A} _ _.
Arguments Raises {A} _.
Arguments Waits {A}.

Section Ops.
Context {A : Type}.

(** [queue.Queue()] *)
Definition new : t A := mk 0 [].

Definition qsize (q : t A) : Z := Z.of_nat (length (items q)).

Definition full (q : t A) : bool := (0 <? maxsize q) && (maxsize q <=? qsize q).

(** [q.put(x)] (block=True, timeout=None): [None] when the call waits for a
    free slot. *)
Definition put (x : A) (q : t A) : option (t A) :=
  if full q then None else Some (mk (maxsize q) (items q ++ [x])).

(** [q.get(timeout=timeout)] (block=True). *)
Definition get (timeout : option Z) (q : t A) : get_result A :=
  match items q with
  | x :: r => Got x (mk (maxsize q) r)
  | [] =>
      match timeout with
      | None => Waits
      | Some tm => if tm <? 0 then Raises ValueError else Raises Empty
      end
  end.

(** [q.get_nowait()] *)
Definition get_nowait (q : t A) : get_result A :=
  match items q with
  | x :: r => Got x (mk (maxsize q) r)
  | [] => Raises Empty
  end.

(** A run of [put]s by one producer; it stops at the first one that waits. *)
Fixpoint put_all (xs : list A) (q : t A) : option (t A) :=
  match xs with
  | [] => Some q
  | x :: r => match put x q with Some q' => put_all r q' | None => None end
  end.

(** [n] calls of [get_nowait] by one consumer: the items received, in the
    order of receipt, and the queue that is left. *)
Fixpoint drain (n : nat) (q : t A) : list A * t A :=
  match n with
  | O => ([], q)
  | S k =>
      match get_nowait q with
      | Got x q' => let '(xs, q'') := drain k q' in (x :: xs, q'')
      | _ => ([], q)
      end
  end.

End Ops.
End Queue.

(* ===================================================================== *)
(** ** The shared globals and the transcription worker (EchoJournal.py) *)
(* ===================================================================== *)

Module Pipeline.

(** Where the worker thread is in [transcription_worker]: loading the
    model, at the top of the [while True] loop, inside
    [text_queue.put(transcription)], or returned. *)
Inductive WorkerState : Type :=
| ModelLoading
| Ready
| Putting (transcription : string)
| Stopped.

(** The module-level globals [audio_queue], [text_queue], [model_loaded],
    and the state of the one worker thread. [None] in the audio queue is the
    sentinel. *)
Record World (AudioChunk : Type) : Type := mkWorld {
  audio_queue : Queue.t (option AudioChunk);
  text_queue : Queue.t string;
  model_loaded : bool;
  worker : WorkerState
}.
Arguments mkWorld {AudioChunk} _ _ _ _.
Arguments audio_queue {AudioChunk} _.
Arguments text_queue {AudioChunk} _.
Arguments model_loaded {AudioChunk} _.
Arguments worker {AudioChunk} _.

Section Worker.
Context {AudioChunk : Type}.

(** [WhisperModel(MODEL_SIZE, ...)] returns ([true]) or raises ([false]). *)
Variable model_loads : bool.

(** [np.squeeze(chunk).astype(np.float32)], [model.transcribe(...)] and the
    iteration over its segments: the texts of the segments, or [None] when
    any of these raises. *)
Variable transcribe : AudioChunk -> option (list string).

Local Abbreviation World := (World AudioChunk).

(** The globals as the module creates them, with the worker just started. *)
Definition initial : World := mkWorld Queue.new Queue.new false ModelLoading.

Definition set_worker (s : WorkerState) (w : World) : World :=
  mkWorld (audio_queue w) (text_queue w) (model_loaded w) s.

Definition set_audio_queue (q : Queue.t (option AudioChunk)) (w : World) : World :=
  mkWorld q (text_queue w) (model_loaded w) (worker w).

Definition set_text_queue (q : Queue.t string) (w : World) : World :=
  mkWorld (audio_queue w) q (model_loaded w) (worker w).

(** [audio_callback]: [audio_queue.put(indata.copy())]; [None] when the
    [put] waits. *)
Definition audio_callback (indata : AudioChunk) (w : World) : option World :=
  match Queue.put (Some indata) (audio_queue w) with
  | Some q => Some (set_audio_queue q w)
  | None => None
  end.

(** The callbacks of successive blocks, as the audio thread makes them. *)
Fixpoint capture (blocks : list AudioChunk) (w : World) : option World :=
  match blocks with
  | [] => Some w
  | indata :: rest =>
      match audio_callback indata w with
      | Some w' => capture rest w'
      | None => None
      end
  end.

(** [text_queue.put(transcription)], then back to the top of the loop. *)
Definition worker_put (transcription : string) (w : World) : World :=
  match Queue.put transcription (text_queue w) with
  | Some q => set_worker Ready (set_text_queue q w)
  | None => set_worker (Putting transcription) w
  end.

(** [audio_queue.get()]: the receive of the loop. *)
Definition worker_receive (w : World) : Queue.get_result (option AudioChunk) :=
  Queue.get None (audio_queue w).

(** The text the worker derives from the segments of one chunk. *)
Definition transcription_of (segments : list string) : string :=
  PyStr.strip (PyStr.join segments).

(** One move of the worker thread. *)
Definition worker_step (w : World) : World :=
  match worker w with
  | ModelLoading =>
      if model_loads
      then mkWorld (audio_queue w) (text_queue w) true Ready
      else mkWorld (audio_queue w) (text_queue w) true Stopped
  | Ready =>
      match worker_receive w with
      | Queue.Waits => w
      | Queue.Raises _ => set_worker Stopped w
      | Queue.Got None q => set_worker Stopped (set_audio_queue q w)
      | Queue.Got (Some audio_chunk) q =>
          let w1 := set_audio_queue q w in
          match transcribe audio_chunk with
          | None => set_worker Stopped w1
          | Some segments =>
              let transcription := transcription_of segments in
              if PyStr.truthy transcription
              then worker_put transcription w1
              else w1
          end
      end
  | Putting transcription => worker_put transcription w
  | Stopped => w
  end.

Fixpoint worker_run (n : nat) (w : World) : World :=
  match n with
  | O => w
  | S k => worker_run k (worker_step w)
  end.

(** The fragments of a list of chunks, in the words of the specification:
    for each chunk in receipt order, its text when that text is not empty. *)
Fixpoint fragments (chunks : list AudioChunk) : list string :=
  match chunks with
  | [] => []
  | c :: r =>
      match transcribe c with
      | Some segments =>
          if PyStr.truthy (transcription_of segments)
          then transcription_of segments :: fragments r
          else fragments r
      | None => fragments r
      end
  end.

End Worker.
End Pipeline.

(* ===================================================================== *)
(** ** The worker of TBD/app.py *)
(* ===================================================================== *)

Module TBD.

(** [audio_queue] only ever holds chunks here (no sentinel is used), and
    the text goes to the standard output. *)
Record World (AudioChunk : Type) : Type := mkWorld {
  audio_queue : Queue.t AudioChunk;
  printed : list string;
  alive : bool
}.
Arguments mkWorld {AudioChunk} _ _ _.
Arguments audio_queue {AudioChunk} _.
Arguments printed {AudioChunk} _.
Arguments alive {AudioChunk} _.

Section Worker.
Context {AudioChunk : Type}.
Variable transcribe : AudioChunk -> option (list string).

(** [audio_queue.get(timeout=1)] *)
Definition worker_receive (w : World AudioChunk) : Queue.get_result AudioChunk :=
  Queue.get (Some 1) (audio_queue w).

(** One iteration of the [while True] loop of [transcription_worker]. *)
Definition worker_step (w : World AudioChunk) : World AudioChunk :=
  if alive w then
    match worker_receive w with
    | Queue.Got audio_chunk q =>
        match transcribe audio_chunk with
        | None => mkWorld q (printed w) false
        | Some segments =>
            let transcription := PyStr.strip (PyStr.join segments) in
            if PyStr.truthy transcription
            then mkWorld q (printed w ++ [transcription]) true
            else mkWorld q (printed w) true
        end
    | Queue.Raises Queue.Empty => w
    | Queue.Raises _ => mkWorld (audio_queue w) (printed w) false
    | Queue.Waits => w
    end
  else w.

Fixpoint worker_run (n : nat) (w : World AudioChunk) : World AudioChunk :=
  match n with
  | O => w
  | S k => worker_run k (worker_step w)
  end.

End Worker.
End TBD.

(* ===================================================================== *)
(** ** pygame: colours, rectangles, fonts and surfaces *)
(* ===================================================================== *)

Definition Color : Type := Z * Z * Z.

Module Rect.
(** [pygame.Rect(left, top, width, height)] *)
Record t : Type := mk { left : Z; top : Z; width : Z; height : Z }.

(** [rect.collidepoint(pos)]: the right and bottom edges are outside. *)
Definition collidepoint (r : t) (pos : Z * Z) : bool :=
  (left r <=? fst pos) && (fst pos <? left r + width r) &&
  (top r <=? snd pos) && (snd pos <? top r + height r).
End Rect.

Module Font.
(** A [pygame.font.Font]: its name and point size, and its metrics.
    [size text] is the (width, height) of the rendered [text], which is
    also [font.render(text, True, color).get_size()]. *)
Record t : Type := mk {
  name : string;
  points : Z;
  size : string -> Z * Z;
  get_height : Z
}.

(** Two fonts with the same metrics. *)
Definition same_metrics (f g : t) : Prop :=
  (forall text, size f text = size g text) /\ get_height f = get_height g.
End Font.

(** What has been drawn on a surface, oldest first. *)
Inductive DrawOp : Type :=
| Fill (c : Color)
| Circle (c : Color) (center : Z * Z) (radius : Z)
| Blit (text : string) (c : Color) (pos : Z * Z)
| BlitCentered (text : string) (c : Color) (center : Z * Z)
| Button (r : Rect.t) (text : string).

Module Surface.
Record t : Type := mk { get_width : Z; get_height : Z; ops : list DrawOp }.

(** [surface.blit(font.render(word, True, color), pos)] and the other
    drawing calls: one more operation on the surface. *)
Definition draw (op : DrawOp) (s : t) : t :=
  mk (get_width s) (get_height s) (ops s ++ [op]).

(** [surface.fill(color)] covers all that was drawn before. *)
Definition fill (c : Color) (s : t) : t :=
  mk (get_width s) (get_height s) [Fill c].
End Surface.

(* ===================================================================== *)
(** ** The text layout engine: [draw_text_in_columns] *)
(* ===================================================================== *)

Module Layout.

Definition margin : Z := 40.
Definition person_area_width : Z := 250.

Definition col_width (surface : Surface.t) : Z :=
  (Surface.get_width surface - person_area_width - 2 * margin) / 2.

Definition left_col_x : Z := margin.

Definition right_col_x (surface : Surface.t) : Z :=
  Surface.get_width surface - margin - col_width surface.

(** A word with its colour, and the chunk of one transcript fragment. *)
Definition WordToken : Type := string * Color.
Definition TextChunk : Type := list WordToken.

(** The local variables of [draw_text_in_columns] and the surface. *)
Record State : Type := mkState {
  surface : Surface.t;
  col_y : Z;
  current_col_x : Z;
  current_line_x : Z;
  screen_full : bool
}.

Section Engine.
Variable font : Font.t.

Definition space_width : Z := fst (Font.size font " ").

(** The state before the first chunk. *)
Definition start (s : Surface.t) : State :=
  mkState s margin left_col_x left_col_x false.

(** The body of the inner loop for one word: the line break and the column
    break if they are due, then the [blit] and the move of the cursor. When
    the screen is full the word is not drawn ([break]). *)
Definition place_word (wc : WordToken) (st : State) : State :=
  let '(word, color) := wc in
  let '(word_width, word_height) := Font.size font word in
  let s := surface st in
  let blit_at (x y cx : Z) : State :=
    mkState (Surface.draw (Blit word color (x, y)) s) y cx
            (x + (word_width + space_width)) false in
  if current_line_x st + word_width >? current_col_x st + col_width s then
    let y := col_y st + word_height in
    let x := current_col_x st in
    if y + word_height >? Surface.get_height s - margin then
      if current_col_x st =? left_col_x then
        blit_at (right_col_x s) margin (right_col_x s)
      else
        mkState s y (current_col_x st) x true
    else blit_at x y (current_col_x st)
  else blit_at (current_line_x st) (col_y st) (current_col_x st).

(** The inner loop over the words of one chunk, left at the [break]. *)
Fixpoint draw_words (chunk : TextChunk) (st : State) : State :=
  match chunk with
  | [] => st
  | wc :: rest =>
      let st' := place_word wc st in
      if screen_full st' then st' else draw_words rest st'
  end.

(** After a chunk: move to the next line, and to the second column or to
    a full screen when that line is below the column. *)
Definition end_chunk (st : State) : State :=
  let s := surface st in
  let y := col_y st + Font.get_height font in
  let x := current_col_x st in
  if y + Font.get_height font >? Surface.get_height s - margin then
    if current_col_x st =? left_col_x then
      mkState s margin (right_col_x s) x false
    else
      mkState s y (current_col_x st) x true
  else mkState s y (current_col_x st) x false.

(** The outer loop over the chunks. *)
Fixpoint draw_chunks (chunks : list TextChunk) (st : State) : State :=
  match chunks with
  | [] => st
  | chunk :: rest =>
      let st1 := draw_words chunk st in
      if screen_full st1 then st1
      else
        let st2 := end_chunk st1 in
        if screen_full st2 then st2 else draw_chunks rest st2
  end.

(** [draw_text_in_columns(surface, word_color_chunks, font)]: the surface
    after the call and the returned [screen_full]. *)
Definition draw_text_in_columns (s : Surface.t) (word_color_chunks : list TextChunk)
  : Surface.t * bool :=
  let st := draw_chunks word_color_chunks (start s) in
  (surface st, screen_full st).

(** The placements of one call: what it has added to the surface. *)
Definition placements (s : Surface.t) (word_color_chunks : list TextChunk)
  : list DrawOp :=
  drop (length (Surface.ops s))
       (Surface.ops (fst (draw_text_in_columns s word_color_chunks))).

End Engine.

(** The word and colour, and the position, of a drawing of a word. *)
Definition token_of (op : DrawOp) : option WordToken :=
  match op with
  | Blit word color _ => Some (word, color)
  | _ => None
  end.

Definition position_of (op : DrawOp) : option (Z * Z) :=
  match op with
  | Blit _ _ pos => Some pos
  | _ => None
  end.

(** The words of a list of operations, in the order of drawing. *)
Definition tokens_of (ops : list DrawOp) : list WordToken := omap token_of ops.

(** A drawing of a word of height [h] that lies right of the left margin,
    below the top margin and above the bottom margin of the surface [s];
    other operations are not constrained. *)
Definition within_margins (s : Surface.t) (h : Z) (op : DrawOp) : Prop :=
  match position_of op with
  | Some (x, y) => margin <= x /\ margin <= y /\ y + h <= Surface.get_height s - margin
  | None => True
  end.

(** The cursor is on a line that lies inside the column, right of the left
    margin. *)
Definition cursor_inside (h : Z) (st : State) : Prop :=
  margin <= col_y st
  /\ col_y st + h <= Surface.get_height (surface st) - margin
  /\ margin <= current_line_x st
  /\ margin <= current_col_x st.

(** Two runs that differ only in what was on the surface before, [base1]
    and [base2]: same size of the surface, same cursor and flag, same
    operations added. *)
Definition sim (base1 base2 : list DrawOp) (st1 st2 : State) : Prop :=
  Surface.get_width (surface st1) = Surface.get_width (surface st2)
  /\ Surface.get_height (surface st1) = Surface.get_height (surface st2)
  /\ col_y st1 = col_y st2
  /\ current_col_x st1 = current_col_x st2
  /\ current_line_x st1 = current_line_x st2
  /\ screen_full st1 = screen_full st2
  /\ exists added, Surface.ops (surface st1) = base1 ++ added
                   /\ Surface.ops (surface st2) = base2 ++ added.

End Layout.

(* ===================================================================== *)
(** ** The emotion classifier *)
(* ===================================================================== *)

Module Emotion.

Definition EMOTION_COLORS : gmap string Color :=
  list_to_map
    [ ("fear", (100, 149, 237));
      ("anger", (220, 20, 60));
      ("sadness", (119, 136, 153));
      ("disgust", (107, 142, 35));
      ("joy", (255, 165, 0));
      ("surprise", (255, 215, 0));
      ("trust", (255, 182, 193));
      ("anticipation", (144, 238, 144));
      ("positive", (60, 179, 113));
      ("negative", (169, 169, 169)) ]%string.

Definition DEFAULT_TEXT_COLOR : Color := (0, 0, 0).

(** The colour of one word, given the [affect_dict] of the analysis:
    [affect_dict.get(word.lower(), [])], then the first tag of the list
    looked up in [EMOTION_COLORS]. *)
Definition word_color (affect_dict : gmap string (list string)) (word : string)
  : Color :=
  let affect_list := default [] (affect_dict !! PyStr.lower word) in
  match affect_list with
  | [] => DEFAULT_TEXT_COLOR
  | primary_emotion :: _ =>
      match EMOTION_COLORS !! primary_emotion with
      | Some color => color
      | None => DEFAULT_TEXT_COLOR
      end
  end.

(** The chunk built from one fragment: [new_text.split()], each word with
    its colour. *)
Definition new_chunk (affect_dict : gmap string (list string)) (new_text : string)
  : Layout.TextChunk :=
  map (fun word => (word, word_color affect_dict word)) (PyStr.split new_text).

End Emotion.

(* ===================================================================== *)
(** ** The lexicon collaborator: nrclex *)
(* ===================================================================== *)

Module NRCLex.

(** [NRCLex(text).affect_dict] as the nrclex package builds it (the package
    is a collaborator of the program, not a part of it): starting from an
    empty dict, [affect_dict.update({word: lexicon[word]})] for every word
    of the text, as it is written there, that is a key of the lexicon.
    [words] are the words of the text as TextBlob gives them. *)
Definition affect_dict (lexicon : gmap string (list string)) (words : list string)
  : gmap string (list string) :=
  foldl (fun d word =>
           match lexicon !! word with
           | Some tags => <[word := tags]> d
           | None => d
           end) ∅ words.

End NRCLex.

(* ===================================================================== *)
(** ** The main loop and the lifecycle state machine *)
(* ===================================================================== *)

Module App.

Definition TARGET_CHARS_FOR_RELEASE : Z := 500.
Definition WINDOW_WIDTH : Z := 1200.
Definition WINDOW_HEIGHT : Z := 800.
Definition BACKGROUND_COLOR : Color := (255, 255, 255).
Definition TEXT_COLOR : Color := (0, 0, 0).

Inductive AppState : Type := ONBOARDING | LOADING | RUNNING | FINISHED.

Definition AppState_eqb (a b : AppState) : bool :=
  match a, b with
  | ONBOARDING, ONBOARDING | LOADING, LOADING
  | RUNNING, RUNNING | FINISHED, FINISHED => true
  | _, _ => false
  end.

(** The events of [pygame.event.get()] that the loop tells apart. *)
Inductive Event : Type :=
| QUIT
| KEYDOWN
| MOUSEBUTTONDOWN (pos : Z * Z)
| OtherEvent.

(** The local [stream]: not created yet, started, or stopped. *)
Inductive Stream : Type := NoStream | Started | Halted.

Definition stop_button_rect : Rect.t :=
  Rect.mk (WINDOW_WIDTH - 270) (WINDOW_HEIGHT - 60) 250 40.
Definition save_button_rect : Rect.t :=
  Rect.mk (WINDOW_WIDTH - 270) (WINDOW_HEIGHT - 60) 250 40.
Definition resume_button_rect : Rect.t :=
  Rect.mk (WINDOW_WIDTH - 460) (WINDOW_HEIGHT - 60) 170 40.

(** The locals of [main]. [screenshots] are the surfaces written by
    [pygame.image.save]. *)
Record Main : Type := mkMain {
  app_state : AppState;
  word_color_chunks : list Layout.TextChunk;
  total_chars : Z;
  running : bool;
  stream_active : bool;
  stream : Stream;
  screen : Surface.t;
  screenshots : list Surface.t
}.

(** [main] before its loop. *)
Definition initial : Main :=
  mkMain ONBOARDING [] 0 true false NoStream
         (Surface.mk WINDOW_WIDTH WINDOW_HEIGHT []) [].

Definition set_app_state (a : AppState) (m : Main) : Main :=
  mkMain a (word_color_chunks m) (total_chars m) (running m)
         (stream_active m) (stream m) (screen m) (screenshots m).

Definition set_running (b : bool) (m : Main) : Main :=
  mkMain (app_state m) (word_color_chunks m) (total_chars m) b
         (stream_active m) (stream m) (screen m) (screenshots m).

Definition set_screen (s : Surface.t) (m : Main) : Main :=
  mkMain (app_state m) (word_color_chunks m) (total_chars m) (running m)
         (stream_active m) (stream m) s (screenshots m).

Definition on_screen (op : DrawOp) (m : Main) : Main :=
  set_screen (Surface.draw op (screen m)) m.

(** [if stream_active: stream.stop()] and [if stream_active: stream.start()] *)
Definition set_stream_if_active (st : Stream) (m : Main) : Main :=
  mkMain (app_state m) (word_color_chunks m) (total_chars m) (running m)
         (stream_active m) (if stream_active m then st else stream m)
         (screen m) (screenshots m).

(** The body of [for event in pygame.event.get()]. *)
Definition handle_event (m : Main) (event : Event) : Main :=
  let m1 := match event with QUIT => set_running false m | _ => m end in
  let m2 :=
    match app_state m1, event with
    | ONBOARDING, KEYDOWN => set_app_state LOADING m1
    | _, _ => m1
    end in
  match event with
  | MOUSEBUTTONDOWN pos =>
      if AppState_eqb (app_state m2) RUNNING && Rect.collidepoint stop_button_rect pos
      then set_stream_if_active Halted (set_app_state FINISHED m2)
      else if AppState_eqb (app_state m2) FINISHED then
        if Rect.collidepoint save_button_rect pos then
          mkMain (app_state m2) (word_color_chunks m2) (total_chars m2)
                 (running m2) (stream_active m2) (stream m2) (screen m2)
                 (screenshots m2 ++ [screen m2])
        else if Rect.collidepoint resume_button_rect pos then
          set_stream_if_active Started (set_app_state RUNNING m2)
        else m2
      else m2
  | _ => m2
  end.

Definition handle_events (events : list Event) (m : Main) : Main :=
  fold_left handle_event events m.

(** [min(1.0, total_chars / TARGET_CHARS_FOR_RELEASE)] *)
Definition lightness_level (total : Z) : Q :=
  Qmin 1 (inject_Z total / inject_Z TARGET_CHARS_FOR_RELEASE).

(** [clamp(x, lo, hi)] of the specification. *)
Definition clamp (x lo hi : Q) : Q := Qmax lo (Qmin hi x).

(** [int(x)]: truncation towards zero. *)
Definition int_of_Q (x : Q) : Z := Z.quot (Qnum x) (Zpos (Qden x)).

(** [draw_person(surface, lightness_level)] *)
Definition draw_person (level : Q) (s : Surface.t) : Surface.t :=
  let color_val := int_of_Q (255 * level) in
  let center_x := Surface.get_width s / 2 in
  let center_y := Surface.get_height s / 2 in
  Surface.draw (Circle (color_val, color_val, color_val) (center_x, center_y - 50) 30) s.

(** [draw_onboarding] and [draw_loading] *)
Definition draw_onboarding (s : Surface.t) : Surface.t :=
  let s0 := Surface.fill BACKGROUND_COLOR s in
  let cx := Surface.get_width s / 2 in
  let cy := Surface.get_height s / 2 in
  Surface.draw (BlitCentered "Press any key to start" (100, 100, 100) (cx, cy + 20))
    (Surface.draw (BlitCentered "Echo Journal" TEXT_COLOR (cx, cy - 50)) s0).

Definition draw_loading (s : Surface.t) : Surface.t :=
  let s0 := Surface.fill BACKGROUND_COLOR s in
  Surface.draw (BlitCentered "Loading model, please wait..." TEXT_COLOR
                  (Surface.get_width s / 2, Surface.get_height s / 2)) s0.

Section Loop.
Context {AudioChunk : Type}.

(** [NRCLex(new_text).affect_dict]: the lexicon collaborator. *)
Variable NRCLex_affect_dict : string -> gmap string (list string).

(** [pixel_font] *)
Variable pixel_font : Font.t.

Local Abbreviation World := (Pipeline.World AudioChunk).

(** The characters counted for a list of fragments, and the chunks
    appended for them: one chunk for each fragment that has a word. *)
Definition chars_of (fragments : list string) : Z :=
  foldr (fun new_text n => PyStr.len new_text + n) 0 fragments.

Definition chunks_of (fragments : list string) : list Layout.TextChunk :=
  omap (fun new_text =>
          match Emotion.new_chunk (NRCLex_affect_dict new_text) new_text with
          | [] => None
          | chunk => Some chunk
          end) fragments.

(** The [try: new_text = text_queue.get_nowait() ... except queue.Empty]
    block of the RUNNING state. *)
Definition take_text (w : World) (m : Main) : World * Main :=
  match Queue.get_nowait (Pipeline.text_queue w) with
  | Queue.Got new_text q =>
      let new_chunk := Emotion.new_chunk (NRCLex_affect_dict new_text) new_text in
      (Pipeline.set_text_queue q w,
       mkMain (app_state m)
              (match new_chunk with
               | [] => word_color_chunks m
               | _ => word_color_chunks m ++ [new_chunk]
               end)
              (total_chars m + PyStr.len new_text)
              (running m) (stream_active m) (stream m) (screen m) (screenshots m))
  | _ => (w, m)
  end.

(** The LOADING branch. [stream_opens] tells whether [sd.InputStream(...)]
    and [stream.start()] return or raise. *)
Definition loading (stream_opens : bool) (w : World) (m : Main) : Main :=
  let m1 := set_screen (draw_loading (screen m)) m in
  if Pipeline.model_loaded w then
    if stream_opens then
      mkMain RUNNING (word_color_chunks m1) (total_chars m1) (running m1)
             true Started (screen m1) (screenshots m1)
    else set_running false m1
  else m1.

(** The controls drawn at the end of a frame. *)
Definition draw_controls (screen_is_full : bool) (m : Main) : Main :=
  match app_state m with
  | RUNNING =>
      on_screen (Button stop_button_rect "Pause Recording")
        (on_screen (Blit "Recording in progress" (200, 0, 0) (20, WINDOW_HEIGHT - 40)) m)
  | FINISHED =>
      let m1 := on_screen (Button save_button_rect "Save Screenshot") m in
      if negb screen_is_full
      then on_screen (Button resume_button_rect "Resume") m1
      else m1
  | _ => m
  end.

(** The [if app_state in ["RUNNING", "FINISHED"]] block. *)
Definition running_or_finished (w : World) (m : Main) : World * Main :=
  let '(w1, m1) :=
    match app_state m with
    | RUNNING => take_text w m
    | _ => (w, m)
    end in
  let level := lightness_level (total_chars m1) in
  let s1 := draw_person level (screen m1) in
  let '(s2, screen_is_full) :=
    Layout.draw_text_in_columns pixel_font s1 (word_color_chunks m1) in
  let m2 := set_screen s2 m1 in
  let m3 :=
    if screen_is_full && AppState_eqb (app_state m2) RUNNING
    then set_stream_if_active Halted (set_app_state FINISHED m2)
    else m2 in
  (w1, draw_controls screen_is_full m3).

(** One iteration of [while running]. The frame is taken as one step of
    the main thread. *)
Definition frame (events : list Event) (stream_opens : bool)
  (wm : World * Main) : World * Main :=
  let '(w, m) := wm in
  let m1 := handle_events events m in
  let m2 := set_screen (Surface.fill BACKGROUND_COLOR (screen m1)) m1 in
  let m3 :=
    match app_state m2 with
    | ONBOARDING => set_screen (draw_onboarding (screen m2)) m2
    | LOADING => loading stream_opens w m2
    | _ => m2
    end in
  match app_state m3 with
  | RUNNING | FINISHED => running_or_finished w m3
  | _ => (w, m3)
  end.

(** [while running: ...] over the inputs of successive iterations. *)
Fixpoint main_loop (inputs : list (list Event * bool)) (wm : World * Main)
  : World * Main :=
  match inputs with
  | [] => wm
  | (events, stream_opens) :: rest =>
      if running (snd wm)
      then main_loop rest (frame events stream_opens wm)
      else wm
  end.

(** The cleanup after the loop: the stream is stopped and closed, and the
    sentinel is put on the audio queue. [None] when that [put] waits. *)
Definition cleanup (wm : World * Main) : option (World * Main) :=
  let '(w, m) := wm in
  match Queue.put None (Pipeline.audio_queue w) with
  | Some q => Some (Pipeline.set_audio_queue q w, set_stream_if_active Halted m)
  | None => None
  end.

End Loop.

(** The stream agrees with the state: no stream before RUNNING is first
    entered, a started stream in RUNNING, a stopped one in FINISHED. *)
Definition stream_agrees (m : Main) : Prop :=
  match app_state m with
  | ONBOARDING | LOADING => stream m = NoStream /\ stream_active m = false
  | RUNNING => stream m = Started /\ stream_active m = true
  | FINISHED => stream m = Halted /\ stream_active m = true
  end.

(** What a state keeps when only the screen, the transcript and the
    counter change. *)
Definition same_control (m m' : Main) : Prop :=
  app_state m' = app_state m /\ running m' = running m
  /\ stream m' = stream m /\ stream_active m' = stream_active m
  /\ screenshots m' = screenshots m.

Definition same_text (m m' : Main) : Prop :=
  total_chars m' = total_chars m /\ word_color_chunks m' = word_color_chunks m.

(** Whether an event is a click. *)
Definition is_click (e : Event) : bool :=
  match e with MOUSEBUTTONDOWN _ => true | _ => false end.



End App.

(* ===================================================================== *)
(** ** The three threads together *)
(* ===================================================================== *)

Module System.
Section Threads.
Context {AudioChunk : Type}.
Variable model_loads : bool.
Variable transcribe : AudioChunk -> option (list string).
Variable NRCLex_affect_dict : string -> gmap string (list string).
Variable pixel_font : Font.t.

(** The globals, the locals of [main], and whether [main] has left its loop
    and run its cleanup. *)
Record Sys : Type := mkSys {
  world : Pipeline.World AudioChunk;
  main : App.Main;
  exited : bool
}.

(** One step of one thread: the worker; the audio thread, which calls
    [audio_callback] while the stream is started; the main thread, which
    runs one frame while [running] and the cleanup once after that. *)
Inductive step : Sys -> Sys -> Prop :=
| step_worker s :
    step s (mkSys (Pipeline.worker_step model_loads transcribe (world s))
                  (main s) (exited s))
| step_audio s indata w' :
    App.stream (main s) = App.Started ->
    Pipeline.audio_callback indata (world s) = Some w' ->
    step s (mkSys w' (main s) (exited s))
| step_frame s events stream_opens :
    exited s = false ->
    App.running (main s) = true ->
    step s (let wm := App.frame NRCLex_affect_dict pixel_font events stream_opens
                        (world s, main s) in
            mkSys (fst wm) (snd wm) false)
| step_cleanup s wm :
    exited s = false ->
    App.running (main s) = false ->
    App.cleanup (world s, main s) = Some wm ->
    step s (mkSys (fst wm) (snd wm) true).

(** The program at its start: the worker thread is started before the
    loop. *)
Definition initial : Sys := mkSys Pipeline.initial App.initial false.

(** The states the program can be in. *)
Definition reachable (s : Sys) : Prop := rtc step initial s.

(** What holds in every state of the program: while [main] is in its loop
    the stream agrees with the state; after the cleanup the stream is not
    started; the stream exists only once the model-ready signal is set; and
    the signal is unset exactly while the worker loads the model. *)
Definition invariant (s : Sys) : Prop :=
  (exited s = false -> App.stream_agrees (main s))
  /\ (exited s = true -> App.stream (main s) <> App.Started)
  /\ (App.stream_active (main s) = true -> Pipeline.model_loaded (world s) = true)
  /\ (Pipeline.model_loaded (world s) = false
      <-> Pipeline.worker (world s) = Pipeline.ModelLoading).

(** When the model does not load: the worker is loading or stopped, the
    text queue and the transcript are empty and no character is counted. *)
Definition silent (s : Sys) : Prop :=
  (Pipeline.worker (world s) = Pipeline.ModelLoading
   \/ Pipeline.worker (world s) = Pipeline.Stopped)
  /\ Queue.items (Pipeline.text_queue (world s)) = []
  /\ App.word_color_chunks (main s) = []
  /\ App.total_chars (main s) = 0.

(** Between two states: the worker is stopped in the second, nothing has
    been taken from the audio queue and nothing put on the text queue. *)
Definition quiet (s s' : Sys) : Prop :=
  Pipeline.worker (world s') = Pipeline.Stopped
  /\ Queue.items (Pipeline.audio_queue (world s))
       `prefix_of` Queue.items (Pipeline.audio_queue (world s'))
  /\ Queue.items (Pipeline.text_queue (world s'))
       `suffix_of` Queue.items (Pipeline.text_queue (world s)).

End Threads.
End System.

(* ===================================================================== *)
(** ** Concrete inputs used by the examples *)
(* ===================================================================== *)

Module Scenario.

(** A chunk of audio is a list of samples; only its length matters to the
    toy transcription function below. *)
Definition Chunk : Type := list Z.

(** A transcription function: nothing but blanks for silence (no sample),
    two segments for a chunk of one sample, one segment for a chunk of two,
    an error for anything longer. *)
Definition toy_transcribe (c : Chunk) : option (list string) :=
  match c with
  | [] => Some ["  "]
  | [_] => Some [" I am"; " happy "]
  | [_; _] => Some [" so it goes"]
  | _ => None
  end.

(** A monospace font: 18 pixels a character, 30 pixels high. *)
Definition mono : Font.t :=
  Font.mk "VCR OSD Mono" 30 (fun text => (18 * PyStr.len text, 30)) 30.

(** The same metrics under another name. *)
Definition mono' : Font.t :=
  Font.mk "monospace" 24 (fun text => (PyStr.len text * 18, 15 + 15)) 30.

(** The window of the application, empty, and with something on it. *)
Definition window : Surface.t := Surface.mk App.WINDOW_WIDTH App.WINDOW_HEIGHT [].
Definition used_window : Surface.t :=
  Surface.mk App.WINDOW_WIDTH App.WINDOW_HEIGHT
    [Fill App.BACKGROUND_COLOR; Circle (127, 127, 127) (600, 350) 30].

Definition black : Color := Emotion.DEFAULT_TEXT_COLOR.

(** A chunk of one word. *)
Definition line (word : string) : Layout.TextChunk := [(word, black)].

(** Twenty-four one-word chunks fill the lines of the first column. *)
Definition first_column : list Layout.TextChunk := replicate 24 (line "hello").

(** A transcript that leaves the cursor at the start of the last line of
    the second column: 23 short chunks, a chunk of two long words that
    crosses to the second column inside the word loop, 22 short chunks. *)
Definition to_last_line : list Layout.TextChunk :=
  replicate 23 (line "hello")
  ++ [[("incomprehensibilities", black); ("counterrevolutionaries", black)]]
  ++ replicate 22 (line "hello").

(** A word of 45 characters, wider than a column. *)
Definition long_word : string := "pneumonoultramicroscopicsilicovolcanoconiosis".

(** A transcript that fills both columns. *)
Definition full_transcript : list Layout.TextChunk := replicate 48 (line "hello").

(** The lexicon collaborator of the scenario of the specification. *)
Definition happy_lexicon : gmap string (list string) := {[ "happy" := ["joy"] ]}%string.

(** The analysis of a fragment with that lexicon; the fragments of the
    examples have no punctuation, so that their words are those of
    [split]. *)
Definition happy_analysis (new_text : string) : gmap string (list string) :=
  NRCLex.affect_dict happy_lexicon (PyStr.split new_text).

(** The application while recording, one line short of a full screen, and
    a world in which the worker has left two fragments on the text queue. *)
Definition about_to_overflow : App.Main :=
  App.mkMain App.RUNNING (replicate 47 (line "hello")) 235 true true App.Started
             window [].

Definition two_fragments_waiting : Pipeline.World Chunk :=
  Pipeline.mkWorld Queue.new (Queue.mk 0 ["hello"; "I am happy"]) true
                   Pipeline.Ready.

(** The frame, without any event, that takes the first fragment and finds
    the screen full. *)
Definition paused_by_overflow : Pipeline.World Chunk * App.Main :=
  App.frame happy_analysis mono [] true (two_fragments_waiting, about_to_overflow).

(** The application while recording with an empty transcript, and a world
    in which ten fragments of 25 characters each wait on the text queue. *)
Definition recording : App.Main :=
  App.mkMain App.RUNNING [] 0 true true App.Started window [].

Definition ten_fragments_waiting : Pipeline.World Chunk :=
  Pipeline.mkWorld Queue.new
                   (Queue.mk 0 (replicate 10 "the quick brown fox jumps"%string))
                   true Pipeline.Ready.

(** A click inside [resume_button_rect] (and outside [save_button_rect]). *)
Definition click_on_resume : App.Event := App.MOUSEBUTTONDOWN (800, 750).

(** The program after the worker has loaded the model; after the first
    key press and the start of the stream; after a quit event at the very
    start; and after the cleanup that follows it. *)
Definition model_ready : System.Sys :=
  System.mkSys (Pipeline.worker_step true toy_transcribe Pipeline.initial)
               App.initial false.

Definition recording_started : System.Sys :=
  let wm := App.frame happy_analysis mono [App.KEYDOWN] true
                      (System.world model_ready, System.main model_ready) in
  System.mkSys (fst wm) (snd wm) false.

Definition quit_at_start : @System.Sys Chunk :=
  let wm := App.frame happy_analysis mono [App.QUIT] true
                      (Pipeline.initial, App.initial) in
  System.mkSys (fst wm) (snd wm) false.

Definition after_cleanup : System.Sys :=
  match App.cleanup (System.world quit_at_start, System.main quit_at_start) with
  | Some wm => System.mkSys (fst wm) (snd wm) true
  | None => quit_at_start
  end.

(** The program after a failed load of the model. *)
Definition load_failed : System.Sys :=
  System.mkSys (Pipeline.worker_step false toy_transcribe Pipeline.initial)
               App.initial false.

End Scenario.

(* ===================================================================== *)
(** * Properties *)
(* ===================================================================== *)

(** ** Queues *)

Module QueueFacts.
Section Facts.
Context {A : Type}.
Implicit Types (q : Queue.t A) (x : A) (xs l : list A).

Lemma full_unlimited q : Queue.maxsize q <= 0 -> Queue.full q = false.
Proof.
  intros H. unfold Queue.full.
  destruct (Z.ltb_spec 0 (Queue.maxsize q)); [lia | reflexivity].
Qed.

Lemma put_unlimited l x :
  Queue.put x (Queue.mk 0 l) = Some (Queue.mk 0 (l ++ [x])).
Proof. reflexivity. Qed.

Lemma put_all_unlimited xs : forall l,
  Queue.put_all xs (Queue.mk 0 l) = Some (Queue.mk 0 (l ++ xs)).
Proof.
  induction xs as [|x xs IH]; intros l; simpl.
  - by rewrite app_nil_r.
  - rewrite IH. by rewrite <- app_assoc.
Qed.

Lemma drain_all xs : forall k l,
  Queue.drain (length xs) (Queue.mk k (xs ++ l)) = (xs, Queue.mk k l).
Proof.
  induction xs as [|x xs IH]; intros k l; simpl; [reflexivity|].
  unfold Queue.get_nowait; simpl. by rewrite IH.
Qed.

Lemma qsize_mk k l : Queue.qsize (Queue.mk k l) = Z.of_nat (length l).
Proof. reflexivity. Qed.

End Facts.
End QueueFacts.

(** ** The audio callback and the worker *)

Module PipelineFacts.
Import Pipeline.
Section Facts.
Context {AudioChunk : Type}.
Variable model_loads : bool.
Variable transcribe : AudioChunk -> option (list string).
Local Abbreviation World := (World AudioChunk).
Local Abbreviation worker_step := (worker_step model_loads transcribe).
Local Abbreviation worker_run := (worker_run model_loads transcribe).
Local Abbreviation fragments := (fragments transcribe).

Lemma capture_unlimited (blocks : list AudioChunk) : forall l tq ml ws,
  capture blocks (mkWorld (Queue.mk 0 l) tq ml ws)
  = Some (mkWorld (Queue.mk 0 (l ++ map Some blocks)) tq ml ws).
Proof.
  induction blocks as [|b blocks IH]; intros l tq ml ws; simpl.
  - by rewrite app_nil_r.
  - unfold audio_callback; simpl. unfold set_audio_queue; simpl.
    rewrite IH. by rewrite <- app_assoc.
Qed.

Lemma worker_put_unlimited aq old ml ws t :
  worker_put t (mkWorld aq (Queue.mk 0 old) ml ws : World)
  = mkWorld aq (Queue.mk 0 (old ++ [t])) ml Ready.
Proof. reflexivity. Qed.

Lemma step_stopped (w : World) : worker w = Stopped -> worker_step w = w.
Proof. intros H. unfold Pipeline.worker_step. by rewrite H. Qed.

Lemma run_stopped n : forall w : World, worker w = Stopped -> worker_run n w = w.
Proof.
  induction n as [|n IH]; intros w H; simpl; [reflexivity|].
  rewrite step_stopped by exact H. by apply IH.
Qed.

Lemma step_waits k tq ml :
  worker_step (mkWorld (Queue.mk k []) tq ml Ready) = mkWorld (Queue.mk k []) tq ml Ready.
Proof. reflexivity. Qed.

Lemma step_sentinel k rest tq ml :
  worker_step (mkWorld (Queue.mk k (None :: rest)) tq ml Ready)
  = mkWorld (Queue.mk k rest) tq ml Stopped.
Proof. reflexivity. Qed.

Lemma step_error k c rest tq ml :
  transcribe c = None ->
  worker_step (mkWorld (Queue.mk k (Some c :: rest)) tq ml Ready)
  = mkWorld (Queue.mk k rest) tq ml Stopped.
Proof.
  intros H. unfold Pipeline.worker_step; simpl. by rewrite H.
Qed.

Lemma step_chunk c rest old ml segments :
  transcribe c = Some segments ->
  worker_step (mkWorld (Queue.mk 0 (Some c :: rest)) (Queue.mk 0 old) ml Ready)
  = mkWorld (Queue.mk 0 rest)
            (Queue.mk 0 (if PyStr.truthy (transcription_of segments)
                         then old ++ [transcription_of segments] else old))
            ml Ready.
Proof.
  intros H. unfold Pipeline.worker_step; simpl. rewrite H.
  by destruct (PyStr.truthy (transcription_of segments)).
Qed.

Lemma run_until_sentinel chunks : forall rest old ml,
  Forall (fun c => is_Some (transcribe c)) chunks ->
  worker_run (S (length chunks))
    (mkWorld (Queue.mk 0 (map Some chunks ++ None :: rest)) (Queue.mk 0 old) ml Ready)
  = mkWorld (Queue.mk 0 rest) (Queue.mk 0 (old ++ fragments chunks)) ml Stopped.
Proof.
  induction chunks as [|c chunks IH]; intros rest old ml Hall.
  - simpl. by rewrite app_nil_r.
  - inversion Hall as [|? ? [segments Hc] Hrest]; subst.
    change (worker_run (S (length (c :: chunks))) ?w)
      with (worker_run (S (length chunks)) (worker_step w)).
    simpl map. simpl app. rewrite (step_chunk _ _ _ _ _ Hc).
    rewrite IH by exact Hrest. simpl. rewrite Hc.
    destruct (PyStr.truthy (transcription_of segments)); [|reflexivity].
    by rewrite <- app_assoc.
Qed.

End Facts.
End PipelineFacts.

(** ** The main loop *)

Module AppFacts.
Import App.

Lemma len_nonneg s : 0 <= PyStr.len s.
Proof. unfold PyStr.len. lia. Qed.


Lemma handle_event_data m e :
  total_chars (handle_event m e) = total_chars m
  /\ word_color_chunks (handle_event m e) = word_color_chunks m
  /\ screen (handle_event m e) = screen m.
Proof.
  unfold handle_event.
  destruct e, (app_state m) eqn:E; simpl; rewrite ?E; simpl;
    repeat case_match; simpl; done.
Qed.


Lemma handle_events_data events : forall m,
  total_chars (handle_events events m) = total_chars m
  /\ word_color_chunks (handle_events events m) = word_color_chunks m
  /\ screen (handle_events events m) = screen m.
Proof.
  induction events as [|e events IH]; intros m; [done|].
  unfold handle_events in *. simpl.
  destruct (IH (handle_event m e)) as (-> & -> & ->).
  apply handle_event_data.
Qed.



Lemma draw_controls_data full m :
  app_state (draw_controls full m) = app_state m
  /\ running (draw_controls full m) = running m
  /\ total_chars (draw_controls full m) = total_chars m
  /\ word_color_chunks (draw_controls full m) = word_color_chunks m.
Proof. unfold draw_controls. repeat case_match; done. Qed.

Section Loop.
Context {AudioChunk : Type}.
Variable NRCLex_affect_dict : string -> gmap string (list string).
Variable pixel_font : Font.t.
Local Abbreviation World := (Pipeline.World AudioChunk).
Local Abbreviation take_text := (@take_text AudioChunk NRCLex_affect_dict).
Local Abbreviation running_or_finished :=
  (@running_or_finished AudioChunk NRCLex_affect_dict pixel_font).
Local Abbreviation frame := (@frame AudioChunk NRCLex_affect_dict pixel_font).
Local Abbreviation main_loop := (@main_loop AudioChunk NRCLex_affect_dict pixel_font).

Lemma take_text_world (w : World) m :
  Pipeline.worker (fst (take_text w m)) = Pipeline.worker w
  /\ Pipeline.audio_queue (fst (take_text w m)) = Pipeline.audio_queue w
  /\ Pipeline.model_loaded (fst (take_text w m)) = Pipeline.model_loaded w
  /\ Queue.items (Pipeline.text_queue (fst (take_text w m)))
       `suffix_of` Queue.items (Pipeline.text_queue w).
Proof.
  unfold App.take_text, Queue.get_nowait.
  destruct (Queue.items (Pipeline.text_queue w)) as [|t rest] eqn:E; simpl.
  - by rewrite E.
  - repeat split. by apply suffix_cons_r.
Qed.

Lemma take_text_main (w : World) m :
  app_state (snd (take_text w m)) = app_state m
  /\ running (snd (take_text w m)) = running m
  /\ total_chars m <= total_chars (snd (take_text w m))
  /\ screen (snd (take_text w m)) = screen m.
Proof.
  unfold App.take_text. destruct (Queue.get_nowait _); simpl; try (repeat split; lia).
  repeat split. pose proof (len_nonneg x). lia.
Qed.

Lemma running_or_finished_world (w : World) m :
  Pipeline.worker (fst (running_or_finished w m)) = Pipeline.worker w
  /\ Pipeline.audio_queue (fst (running_or_finished w m)) = Pipeline.audio_queue w
  /\ Pipeline.model_loaded (fst (running_or_finished w m)) = Pipeline.model_loaded w
  /\ Queue.items (Pipeline.text_queue (fst (running_or_finished w m)))
       `suffix_of` Queue.items (Pipeline.text_queue w).
Proof.
  unfold App.running_or_finished.
  pose proof (take_text_world w m) as Ht.
  destruct (app_state m); try destruct (take_text w m) as [w1 m1];
    destruct (Layout.draw_text_in_columns _ _ _); simpl in *; done.
Qed.

Lemma running_or_finished_main (w : World) m :
  running (snd (running_or_finished w m)) = running m
  /\ total_chars m <= total_chars (snd (running_or_finished w m)).
Proof.
  unfold App.running_or_finished.
  pose proof (take_text_main w m) as (_ & Hr & Ht & _).
  destruct (app_state m); try destruct (take_text w m) as [w1 m1];
    destruct (Layout.draw_text_in_columns _ _ _) as [s2 full]; simpl in *;
    match goal with
    | |- context [draw_controls ?f ?x] =>
        destruct (draw_controls_data f x) as (_ & -> & -> & _)
    end;
    repeat case_match; simpl; split; (done || lia).
Qed.


Lemma loading_total opens (w : World) m :
  total_chars (loading opens w m) = total_chars m.
Proof. unfold loading. repeat case_match; simpl; done. Qed.

Lemma frame_world events opens (w : World) m :
  Pipeline.worker (fst (frame events opens (w, m))) = Pipeline.worker w
  /\ Pipeline.audio_queue (fst (frame events opens (w, m))) = Pipeline.audio_queue w
  /\ Pipeline.model_loaded (fst (frame events opens (w, m))) = Pipeline.model_loaded w
  /\ Queue.items (Pipeline.text_queue (fst (frame events opens (w, m))))
       `suffix_of` Queue.items (Pipeline.text_queue w).
Proof.
  unfold App.frame.
  match goal with |- context [match app_state ?x with _ => _ end] => generalize x end.
  intros m3. destruct (app_state m3); simpl; try done;
    apply running_or_finished_world.
Qed.


Lemma frame_total events opens (w : World) m :
  total_chars m <= total_chars (snd (frame events opens (w, m))).
Proof.
  unfold App.frame.
  set (m1 := handle_events events m).
  set (m2 := set_screen _ m1).
  set (m3 := match app_state m2 with ONBOARDING => _ | LOADING => _ | _ => m2 end).
  assert (total_chars m3 = total_chars m) as <-.
  { subst m3 m2. simpl.
    destruct (app_state m1); simpl; rewrite ?loading_total; simpl;
      subst m1; apply handle_events_data. }
  destruct (app_state m3); simpl; try lia;
    apply running_or_finished_main.
Qed.

Lemma main_loop_total inputs : forall wm : World * Main,
  total_chars (snd wm) <= total_chars (snd (main_loop inputs wm)).
Proof.
  induction inputs as [|[events opens] inputs IH]; intros [w m]; simpl; [lia|].
  destruct (running m); [|simpl; lia].
  etrans; [apply (frame_total events opens w m)|apply IH].
Qed.

End Loop.
End AppFacts.

(** ** The threads together: a stopped worker stays stopped *)

Module SystemFacts.
Import System.
Section Facts.
Context {AudioChunk : Type}.
Variable model_loads : bool.
Variable transcribe : AudioChunk -> option (list string).
Variable NRCLex_affect_dict : string -> gmap string (list string).
Variable pixel_font : Font.t.
Local Abbreviation Sys := (@Sys AudioChunk).
Local Abbreviation step :=
  (@step AudioChunk model_loads transcribe NRCLex_affect_dict pixel_font).

Lemma put_items {A} (x : A) q q' :
  Queue.put x q = Some q' -> Queue.items q' = Queue.items q ++ [x].
Proof. unfold Queue.put. destruct (Queue.full q); [done|]. by intros [= <-]. Qed.

Lemma step_quiet s s' :
  Pipeline.worker (world s) = Pipeline.Stopped -> step s s' -> quiet s s'.
Proof.
  intros Hs Hstep. unfold quiet. destruct Hstep as [s|s indata w' _ Hcb|s events opens _ _|s wm _ _ Hc];
    cbn [world].
  - rewrite PipelineFacts.step_stopped by exact Hs. done.
  - unfold Pipeline.audio_callback in Hcb.
    destruct (Queue.put _ _) as [q|] eqn:Hput; [|done].
    injection Hcb as <-. simpl. apply put_items in Hput. rewrite Hput.
    split; [exact Hs|]. split; [by apply prefix_app_r|done].
  - destruct (AppFacts.frame_world NRCLex_affect_dict pixel_font events opens
                (world s) (main s)) as (Hw & Ha & _ & Ht).
    rewrite Hw, Ha. done.
  - unfold App.cleanup in Hc.
    destruct (Queue.put _ _) as [q|] eqn:Hput; [|done].
    injection Hc as <-. simpl. apply put_items in Hput. rewrite Hput.
    split; [exact Hs|]. split; [by apply prefix_app_r|done].
Qed.

Lemma steps_quiet s s' :
  Pipeline.worker (world s) = Pipeline.Stopped -> rtc step s s' -> quiet s s'.
Proof.
  intros Hs Hsteps. induction Hsteps as [s|s s1 s2 H1 _ IH].
  - done.
  - destruct (step_quiet _ _ Hs H1) as (Hw & Ha & Ht).
    destruct (IH Hw) as (Hw2 & Ha2 & Ht2).
    split; [exact Hw2|]. split; [by etrans|by etrans].
Qed.

End Facts.
End SystemFacts.

(** ** Claims on the queues and on the worker *)

(** C2 (as stated, refuted): no capacity bounds the audio queue. For every
    candidate capacity, the callbacks of enough blocks, with no consumer in
    between, leave more items than that on the queue. *)
Lemma C2_no_capacity_bounds_the_audio_queue :
  ~ exists cap : Z,
      forall (blocks : list Scenario.Chunk) w,
        Pipeline.capture blocks Pipeline.initial = Some w ->
        Queue.qsize (Pipeline.audio_queue w) <= cap.
Proof.
  intros [cap H].
  specialize (H (replicate (Z.to_nat cap + 1) []) _
                (PipelineFacts.capture_unlimited _ _ _ _ _)).
  simpl in H. rewrite QueueFacts.qsize_mk, length_map, length_replicate in H. lia.
Qed.

(** C2 (amended): the audio queue and the text queue are FIFO queues
    without a capacity. Every [put] of the audio callback and of the worker
    returns at once and adds one item at the end; the items leave in the
    order in which they were put; and for every capacity there is a run of
    callbacks after which the audio queue is larger. *)
Theorem C2_queues_are_unbounded_fifo :
  (forall (AudioChunk : Type) (blocks : list AudioChunk),
      Pipeline.capture blocks Pipeline.initial
      = Some (Pipeline.mkWorld (Queue.mk 0 (map Some blocks)) Queue.new false
                               Pipeline.ModelLoading))
  /\ (forall (AudioChunk : Type) (aq : Queue.t (option AudioChunk)) old ml ws t,
      Pipeline.worker_put t (Pipeline.mkWorld aq (Queue.mk 0 old) ml ws)
      = Pipeline.mkWorld aq (Queue.mk 0 (old ++ [t])) ml Pipeline.Ready)
  /\ (forall (A : Type) (xs : list A),
      exists q, Queue.put_all xs Queue.new = Some q
                /\ Queue.qsize q = Z.of_nat (length xs)
                /\ Queue.drain (length xs) q = (xs, Queue.new))
  /\ (forall cap : Z,
      exists (blocks : list Scenario.Chunk) w,
        Pipeline.capture blocks Pipeline.initial = Some w
        /\ cap < Queue.qsize (Pipeline.audio_queue w)).
Proof.
  split; [|split; [|split]].
  - intros AudioChunk blocks. apply (PipelineFacts.capture_unlimited blocks []).
  - intros. reflexivity.
  - intros A xs. exists (Queue.mk 0 xs). split; [|split].
    + apply (QueueFacts.put_all_unlimited xs []).
    + reflexivity.
    + rewrite <- (app_nil_r xs) at 2. apply QueueFacts.drain_all.
  - intros cap. exists (replicate (Z.to_nat cap + 1) []). eexists. split.
    + apply (PipelineFacts.capture_unlimited _ []).
    + simpl. rewrite QueueFacts.qsize_mk, length_map, length_replicate. lia.
Qed.

(** C3 (as stated, refuted): the receive of the worker of EchoJournal.py is
    not a receive with a timeout. With any timeout a [get] on an empty queue
    raises [queue.Empty]; [audio_queue.get()] waits instead. *)
Lemma C3_receive_without_timeout :
  ~ forall w : Pipeline.World Scenario.Chunk,
      Pipeline.worker w = Pipeline.Ready ->
      exists timeout : Z,
        Pipeline.worker_receive w = Queue.get (Some timeout) (Pipeline.audio_queue w).
Proof.
  intros H.
  destruct (H (Pipeline.mkWorld Queue.new Queue.new true Pipeline.Ready) eq_refl)
    as [timeout Ht].
  unfold Pipeline.worker_receive, Queue.get in Ht. simpl in Ht.
  destruct (timeout <? 0); discriminate.
Qed.

(** C3 (amended): while Ready, every iteration of the worker of
    EchoJournal.py receives one item by a blocking receive without a timeout
    (on an empty queue it waits); on the sentinel it stops and takes nothing
    more; otherwise it takes exactly that one chunk, invokes the
    transcription function and puts the stripped text on the text queue
    exactly when it is not empty. Over a queue holding chunks that all
    transcribe, followed by the sentinel, the text queue receives the
    non-empty texts in the order of receipt and the worker ends Stopped with
    the items behind the sentinel untouched. (The receive with a timeout of
    one second is the one of TBD/app.py, whose worker goes round its loop
    again when the queue is empty.) *)
Theorem C3_worker_loop (AudioChunk : Type) (model_loads : bool)
    (transcribe : AudioChunk -> option (list string)) :
  let step := Pipeline.worker_step model_loads transcribe in
  (forall k tq ml,
      Pipeline.worker_receive (Pipeline.mkWorld (Queue.mk k []) tq ml Pipeline.Ready)
      = @Queue.Waits (option AudioChunk)
      /\ step (Pipeline.mkWorld (Queue.mk k []) tq ml Pipeline.Ready)
         = Pipeline.mkWorld (Queue.mk k []) tq ml Pipeline.Ready)
  /\ (forall k rest tq ml,
      step (Pipeline.mkWorld (Queue.mk k (None :: rest)) tq ml Pipeline.Ready)
      = Pipeline.mkWorld (Queue.mk k rest) tq ml Pipeline.Stopped)
  /\ (forall c rest old ml,
      step (Pipeline.mkWorld (Queue.mk 0 (Some c :: rest)) (Queue.mk 0 old) ml
                             Pipeline.Ready)
      = match transcribe c with
        | Some segments =>
            let text := PyStr.strip (PyStr.join segments) in
            Pipeline.mkWorld (Queue.mk 0 rest)
              (Queue.mk 0 (old ++ if PyStr.truthy text then [text] else []))
              ml Pipeline.Ready
        | None =>
            Pipeline.mkWorld (Queue.mk 0 rest) (Queue.mk 0 old) ml Pipeline.Stopped
        end)
  /\ (forall chunks rest old ml,
      Forall (fun c => is_Some (transcribe c)) chunks ->
      Pipeline.worker_run model_loads transcribe (S (length chunks))
        (Pipeline.mkWorld (Queue.mk 0 (map Some chunks ++ None :: rest))
                          (Queue.mk 0 old) ml Pipeline.Ready)
      = Pipeline.mkWorld (Queue.mk 0 rest)
          (Queue.mk 0 (old ++ Pipeline.fragments transcribe chunks)) ml
          Pipeline.Stopped)
  /\ (forall printed,
      TBD.worker_receive (TBD.mkWorld (Queue.mk 0 []) printed true)
      = @Queue.Raises AudioChunk Queue.Empty
      /\ TBD.worker_step transcribe (TBD.mkWorld (Queue.mk 0 []) printed true)
         = TBD.mkWorld (Queue.mk 0 []) printed true).
Proof.
  intros step. split; [|split; [|split; [|split]]].
  - intros. split; reflexivity.
  - intros. reflexivity.
  - intros c rest old ml. subst step.
    destruct (transcribe c) as [segments|] eqn:Hc.
    + rewrite (PipelineFacts.step_chunk _ _ _ _ _ _ _ Hc).
      unfold Pipeline.transcription_of. cbv zeta.
      destruct (PyStr.truthy _); [reflexivity|]. by rewrite app_nil_r.
    + by apply PipelineFacts.step_error.
  - intros. by apply PipelineFacts.run_until_sentinel.
  - intros. split; reflexivity.
Qed.

Lemma C3_worker_loop_witness :
  Forall (fun c => is_Some (Scenario.toy_transcribe c)) [[1]; []; [1; 2]]
  /\ Pipeline.worker_run true Scenario.toy_transcribe 4
       (Pipeline.mkWorld
          (Queue.mk 0 [Some [1]; Some []; Some [1; 2]; None; Some [5]])
          (Queue.mk 0 []) true Pipeline.Ready)
     = Pipeline.mkWorld (Queue.mk 0 [Some [5]])
         (Queue.mk 0 ["I am happy"; "so it goes"]%string) true Pipeline.Stopped.
Proof.
  assert (Forall (fun c => is_Some (Scenario.toy_transcribe c)) [[1]; []; [1; 2]])
    as Hall by (repeat constructor; eexists; reflexivity).
  split; [exact Hall|].
  exact (proj1 (proj2 (proj2 (proj2
           (C3_worker_loop Scenario.Chunk true Scenario.toy_transcribe))))
           [[1]; []; [1; 2]] [Some [5]] [] true Hall).
Defined.

(** C8: when the transcription function raises on a chunk received while
    the worker is Ready, the worker stops for good. The failing chunk is
    the last item it takes and nothing is put on the text queue for it;
    however long the worker thread is run afterwards nothing changes; and
    in every later state of the whole program, whatever the audio thread
    and the main loop do, the worker is still Stopped, nothing has left the
    audio queue and nothing has been added to the text queue. *)
Theorem C8_transcription_error_is_final (AudioChunk : Type) (model_loads : bool)
    (transcribe : AudioChunk -> option (list string))
    (NRCLex_affect_dict : string -> gmap string (list string))
    (pixel_font : Font.t)
    (w : Pipeline.World AudioChunk) (c : AudioChunk)
    (q : Queue.t (option AudioChunk)) :
  Pipeline.worker w = Pipeline.Ready ->
  Pipeline.worker_receive w = Queue.Got (Some c) q ->
  transcribe c = None ->
  let w' := Pipeline.worker_step model_loads transcribe w in
  Pipeline.worker w' = Pipeline.Stopped
  /\ Pipeline.audio_queue w' = q
  /\ Pipeline.text_queue w' = Pipeline.text_queue w
  /\ (forall n, Pipeline.worker_run model_loads transcribe n w' = w')
  /\ (forall m ex s',
        rtc (System.step model_loads transcribe NRCLex_affect_dict pixel_font)
            (System.mkSys w' m ex) s' ->
        Pipeline.worker (System.world s') = Pipeline.Stopped
        /\ Queue.items q `prefix_of` Queue.items (Pipeline.audio_queue (System.world s'))
        /\ Queue.items (Pipeline.text_queue (System.world s'))
             `suffix_of` Queue.items (Pipeline.text_queue w)).
Proof.
  intros Hready Hrecv Herr w'.
  assert (w' = Pipeline.mkWorld q (Pipeline.text_queue w) (Pipeline.model_loaded w)
                                Pipeline.Stopped) as Hw'.
  { subst w'. unfold Pipeline.worker_step. by rewrite Hready, Hrecv, Herr. }
  rewrite Hw'. cbn [Pipeline.worker Pipeline.audio_queue Pipeline.text_queue].
  do 3 (split; [reflexivity|]). split.
  - intros n. by apply PipelineFacts.run_stopped.
  - intros m ex s' Hsteps.
    apply SystemFacts.steps_quiet in Hsteps; [exact Hsteps|reflexivity].
Qed.

Lemma C8_transcription_error_is_final_witness :
  let w := Pipeline.mkWorld (Queue.mk 0 [Some [1; 2; 3]; Some [1]])
                            (Queue.mk 0 ["before"%string]) true Pipeline.Ready in
  let w' := Pipeline.worker_step true Scenario.toy_transcribe w in
  (Pipeline.worker w = Pipeline.Ready
   /\ Pipeline.worker_receive w = Queue.Got (Some [1; 2; 3]) (Queue.mk 0 [Some [1]])
   /\ Scenario.toy_transcribe [1; 2; 3] = None)
  /\ Pipeline.worker w' = Pipeline.Stopped
  /\ Pipeline.audio_queue w' = Queue.mk 0 [Some [1]]
  /\ Pipeline.text_queue w' = Queue.mk 0 ["before"%string]
  /\ Pipeline.worker_run true Scenario.toy_transcribe 5 w' = w'
  /\ Pipeline.worker
       (Pipeline.worker_step true Scenario.toy_transcribe w') = Pipeline.Stopped.
Proof.
  intros w w'.
  destruct (C8_transcription_error_is_final Scenario.Chunk true
              Scenario.toy_transcribe (fun _ => Scenario.happy_lexicon)
              Scenario.mono w [1; 2; 3] (Queue.mk 0 [Some [1]])
              eq_refl eq_refl eq_refl) as (H1 & H2 & H3 & H4 & H5).
  split; [repeat split|].
  split; [exact H1|]. split; [exact H2|]. split; [exact H3|].
  split; [exact (H4 5%nat)|].
  exact (proj1 (H5 App.initial false _
                  (rtc_once _ _ (System.step_worker true Scenario.toy_transcribe
                                   (fun _ => Scenario.happy_lexicon) Scenario.mono
                                   (System.mkSys w' App.initial false))))).
Defined.

(** ** The layout engine *)

Module LayoutFacts.
Import Layout.

Ltac open_sim H :=
  destruct H as (Hw & Hh & Hy & Hc & Hl & Hf & added & Ho1 & Ho2).

Section TwoRuns.
Variables font1 font2 : Font.t.
Hypothesis metrics : Font.same_metrics font1 font2.
Variables base1 base2 : list DrawOp.
Local Abbreviation sim := (sim base1 base2).

Lemma space_width_same : space_width font1 = space_width font2.
Proof. unfold space_width. by rewrite (proj1 metrics). Qed.

Lemma col_width_same s1 s2 :
  Surface.get_width s1 = Surface.get_width s2 -> col_width s1 = col_width s2.
Proof. unfold col_width. by intros ->. Qed.

Lemma right_col_x_same s1 s2 :
  Surface.get_width s1 = Surface.get_width s2 -> right_col_x s1 = right_col_x s2.
Proof. unfold right_col_x, col_width. by intros ->. Qed.

Lemma place_word_sim wc st1 st2 :
  sim st1 st2 -> sim (place_word font1 wc st1) (place_word font2 wc st2).
Proof.
  intros H. open_sim H. destruct wc as [word color].
  unfold place_word. rewrite <- (proj1 metrics word), <- space_width_same.
  destruct (Font.size font1 word) as [word_width word_height].
  rewrite <- Hy, <- Hc, <- Hl, <- Hh, <- (col_width_same _ _ Hw),
    <- (right_col_x_same _ _ Hw).
  repeat case_match; unfold Layout.sim; simpl;
    rewrite ?Hw, ?Hh, ?Ho1, ?Ho2; repeat split; try done;
    try (exists (added ++ [Blit word color (right_col_x (surface st1), margin)]);
         by rewrite !app_assoc);
    try (eexists; split; by rewrite <- app_assoc);
    by exists added.
Qed.

Lemma draw_words_sim chunk : forall st1 st2,
  sim st1 st2 -> sim (draw_words font1 chunk st1) (draw_words font2 chunk st2).
Proof.
  induction chunk as [|wc chunk IH]; intros st1 st2 H; simpl; [exact H|].
  pose proof (place_word_sim wc _ _ H) as H'.
  assert (screen_full (place_word font1 wc st1) = screen_full (place_word font2 wc st2))
    as <- by apply H'.
  destruct (screen_full (place_word font1 wc st1)); [exact H'|by apply IH].
Qed.

Lemma end_chunk_sim st1 st2 :
  sim st1 st2 -> sim (end_chunk font1 st1) (end_chunk font2 st2).
Proof.
  intros H. open_sim H. unfold end_chunk.
  rewrite <- (proj2 metrics), <- Hy, <- Hc, <- Hh, <- (right_col_x_same _ _ Hw).
  repeat case_match; unfold Layout.sim; simpl; repeat split; try done;
    by exists added.
Qed.

Lemma draw_chunks_sim chunks : forall st1 st2,
  sim st1 st2 -> sim (draw_chunks font1 chunks st1) (draw_chunks font2 chunks st2).
Proof.
  induction chunks as [|chunk chunks IH]; intros st1 st2 H; simpl; [exact H|].
  pose proof (draw_words_sim chunk _ _ H) as H1.
  assert (screen_full (draw_words font1 chunk st1) = screen_full (draw_words font2 chunk st2))
    as <- by apply H1.
  destruct (screen_full (draw_words font1 chunk st1)); [exact H1|].
  pose proof (end_chunk_sim _ _ H1) as H2.
  assert (screen_full (end_chunk font1 (draw_words font1 chunk st1))
          = screen_full (end_chunk font2 (draw_words font2 chunk st2)))
    as <- by apply H2.
  destruct (screen_full (end_chunk font1 (draw_words font1 chunk st1)));
    [exact H2|by apply IH].
Qed.

End TwoRuns.

Lemma start_sim s1 s2 :
  Surface.get_width s1 = Surface.get_width s2 ->
  Surface.get_height s1 = Surface.get_height s2 ->
  sim (Surface.ops s1) (Surface.ops s2) (start s1) (start s2).
Proof.
  intros Hw Hh. unfold sim, start; simpl. repeat split; try done.
  exists []. by rewrite !app_nil_r.
Qed.

(** The placements and the flag depend on the size of the surface and on
    the metrics of the font only. *)
Lemma draw_text_in_columns_sim font1 font2 s1 s2 chunks :
  Font.same_metrics font1 font2 ->
  Surface.get_width s1 = Surface.get_width s2 ->
  Surface.get_height s1 = Surface.get_height s2 ->
  placements font1 s1 chunks = placements font2 s2 chunks
  /\ snd (draw_text_in_columns font1 s1 chunks)
     = snd (draw_text_in_columns font2 s2 chunks).
Proof.
  intros Hm Hsw Hsh.
  pose proof (draw_chunks_sim font1 font2 Hm _ _ chunks _ _ (start_sim s1 s2 Hsw Hsh)) as H.
  open_sim H. unfold placements, draw_text_in_columns. simpl.
  rewrite Ho1, Ho2, !drop_app_length. done.
Qed.


End LayoutFacts.

(** *** Word by word *)

Module LayoutSteps.
Import Layout.
Section Steps.
Variable font : Font.t.

(** A word that fits is drawn at the cursor, which then moves right by the
    width of the word and of a space. *)
Lemma place_word_fits word color st :
  current_line_x st + fst (Font.size font word)
    <= current_col_x st + col_width (surface st) ->
  place_word font (word, color) st
  = mkState (Surface.draw (Blit word color (current_line_x st, col_y st)) (surface st))
            (col_y st) (current_col_x st)
            (current_line_x st + (fst (Font.size font word) + space_width font))
            false.
Proof.
  intros H. unfold place_word.
  destruct (Font.size font word) as [w h]; simpl in *.
  by destruct (Z.gtb_spec (current_line_x st + w)
                 (current_col_x st + col_width (surface st))); [lia|].
Qed.

(** A word that does not fit goes to the start of the next line when that
    line is inside the column. *)
Lemma place_word_new_line word color st :
  current_col_x st + col_width (surface st)
    < current_line_x st + fst (Font.size font word) ->
  col_y st + snd (Font.size font word) + snd (Font.size font word)
    <= Surface.get_height (surface st) - margin ->
  place_word font (word, color) st
  = mkState (Surface.draw (Blit word color
                             (current_col_x st, col_y st + snd (Font.size font word)))
                          (surface st))
            (col_y st + snd (Font.size font word)) (current_col_x st)
            (current_col_x st + (fst (Font.size font word) + space_width font))
            false.
Proof.
  intros H1 H2. unfold place_word.
  destruct (Font.size font word) as [w h]; simpl in *.
  destruct (Z.gtb_spec (current_line_x st + w)
              (current_col_x st + col_width (surface st))); [|lia].
  by destruct (Z.gtb_spec (col_y st + h + h)
                 (Surface.get_height (surface st) - margin)); [lia|].
Qed.

(** When the next line is below the first column the word goes to the top
    of the second column. *)
Lemma place_word_second_column word color st :
  current_col_x st + col_width (surface st)
    < current_line_x st + fst (Font.size font word) ->
  Surface.get_height (surface st) - margin
    < col_y st + snd (Font.size font word) + snd (Font.size font word) ->
  current_col_x st = left_col_x ->
  place_word font (word, color) st
  = mkState (Surface.draw (Blit word color (right_col_x (surface st), margin))
                          (surface st))
            margin (right_col_x (surface st))
            (right_col_x (surface st) + (fst (Font.size font word) + space_width font))
            false.
Proof.
  intros H1 H2 H3. unfold place_word.
  destruct (Font.size font word) as [w h]; simpl in *.
  destruct (Z.gtb_spec (current_line_x st + w)
              (current_col_x st + col_width (surface st))); [|lia].
  destruct (Z.gtb_spec (col_y st + h + h)
              (Surface.get_height (surface st) - margin)); [|lia].
  by rewrite H3.
Qed.

(** When the next line is below the second column the screen is full and
    the word is not drawn. *)
Lemma place_word_overflow word color st :
  current_col_x st + col_width (surface st)
    < current_line_x st + fst (Font.size font word) ->
  Surface.get_height (surface st) - margin
    < col_y st + snd (Font.size font word) + snd (Font.size font word) ->
  current_col_x st <> left_col_x ->
  place_word font (word, color) st
  = mkState (surface st) (col_y st + snd (Font.size font word))
            (current_col_x st) (current_col_x st) true.
Proof.
  intros H1 H2 H3. unfold place_word.
  destruct (Font.size font word) as [w h]; simpl in *.
  destruct (Z.gtb_spec (current_line_x st + w)
              (current_col_x st + col_width (surface st))); [|lia].
  destruct (Z.gtb_spec (col_y st + h + h)
              (Surface.get_height (surface st) - margin)); [|lia].
  by destruct (Z.eqb_spec (current_col_x st) left_col_x).
Qed.

(** After a chunk the cursor goes to the start of the next line. *)
Lemma end_chunk_new_line st :
  col_y st + Font.get_height font + Font.get_height font
    <= Surface.get_height (surface st) - margin ->
  end_chunk font st
  = mkState (surface st) (col_y st + Font.get_height font) (current_col_x st)
            (current_col_x st) false.
Proof.
  intros H. unfold end_chunk.
  by destruct (Z.gtb_spec (col_y st + Font.get_height font + Font.get_height font)
                 (Surface.get_height (surface st) - margin)); [lia|].
Qed.

(** After a chunk whose next line is below the first column: the column
    and the line are those of the top of the second column, and
    [current_line_x] is still the left edge of the first. *)
Lemma end_chunk_second_column st :
  Surface.get_height (surface st) - margin
    < col_y st + Font.get_height font + Font.get_height font ->
  current_col_x st = left_col_x ->
  end_chunk font st
  = mkState (surface st) margin (right_col_x (surface st)) left_col_x false.
Proof.
  intros H1 H2. unfold end_chunk.
  destruct (Z.gtb_spec (col_y st + Font.get_height font + Font.get_height font)
              (Surface.get_height (surface st) - margin)); [|lia].
  by rewrite H2.
Qed.

Lemma end_chunk_overflow st :
  Surface.get_height (surface st) - margin
    < col_y st + Font.get_height font + Font.get_height font ->
  current_col_x st <> left_col_x ->
  screen_full (end_chunk font st) = true.
Proof.
  intros H1 H2. unfold end_chunk.
  destruct (Z.gtb_spec (col_y st + Font.get_height font + Font.get_height font)
              (Surface.get_height (surface st) - margin)); [|lia].
  by destruct (Z.eqb_spec (current_col_x st) left_col_x).
Qed.

Lemma col_width_draw op s : col_width (Surface.draw op s) = col_width s.
Proof. reflexivity. Qed.

Ltac norm :=
  cbn [start surface current_line_x current_col_x col_y fst snd];
  rewrite ?col_width_draw;
  cbn [Surface.draw Surface.get_width Surface.get_height];
  lia.

Lemma draw_words_cons wc rest st st' :
  place_word font wc st = st' ->
  screen_full st' = false ->
  draw_words font (wc :: rest) st = draw_words font rest st'.
Proof. intros <- H. simpl. by rewrite H. Qed.

(** Four words of one width, three of which fit on a line: the fourth is
    drawn at the start of the second line. *)
Lemma three_words_to_a_line s color w1 w2 w3 w4 width height :
  Font.size font w1 = (width, height) ->
  Font.size font w2 = (width, height) ->
  Font.size font w3 = (width, height) ->
  Font.size font w4 = (width, height) ->
  0 < width -> 0 <= space_width font ->
  3 * width + 2 * space_width font <= col_width s ->
  col_width s < 4 * width + 3 * space_width font ->
  margin + 2 * height <= Surface.get_height s - margin ->
  surface (draw_words font [(w1, color); (w2, color); (w3, color); (w4, color)]
                      (start s))
  = Surface.mk (Surface.get_width s) (Surface.get_height s)
      (Surface.ops s
       ++ [Blit w1 color (left_col_x, margin);
           Blit w2 color (left_col_x + (width + space_width font), margin);
           Blit w3 color (left_col_x + 2 * (width + space_width font), margin);
           Blit w4 color (left_col_x, margin + height)]).
Proof.
  intros E1 E2 E3 E4 Hw Hs H3 H4 Hh.
  assert (left_col_x = margin) as Hl by reflexivity.
  erewrite draw_words_cons; [|apply place_word_fits; rewrite E1; norm|reflexivity].
  erewrite draw_words_cons; [|apply place_word_fits; rewrite E1, E2; norm|reflexivity].
  erewrite draw_words_cons;
    [|apply place_word_fits; rewrite E1, E2, E3; norm|reflexivity].
  erewrite draw_words_cons;
    [|apply place_word_new_line; rewrite ?E1, ?E2, ?E3, ?E4; norm|reflexivity].
  rewrite E1, E2, E3, E4. cbn [surface start fst snd]. unfold Surface.draw; simpl.
  rewrite <- !app_assoc. simpl.
  by replace (left_col_x + (width + space_width font) + (width + space_width font))
    with (left_col_x + 2 * (width + space_width font)) by lia.
Qed.

End Steps.
End LayoutSteps.

(** ** Claims on the layout engine *)

(** C5 (the code at the failing input): in the application window with a
    monospace font, twenty-four one-word chunks fill the lines of the first
    column. The line break forced after the twenty-fourth is below the
    column, so [current_col_x] becomes the second column (x = 725) and
    [col_y] the top margin, but [current_line_x] keeps the left edge of the
    first column: the word of the next chunk is drawn at (40, 40), where
    the first word of the transcript already is. When the same break
    happens inside the word loop the word is drawn at (725, 40). *)
Theorem C5_column_break_after_chunk_keeps_old_x :
  let st := Layout.draw_chunks Scenario.mono Scenario.first_column
              (Layout.start Scenario.window) in
  (Layout.screen_full st, Layout.current_col_x st, Layout.col_y st,
   Layout.current_line_x st)
  = (false, Layout.right_col_x Scenario.window, Layout.margin, Layout.left_col_x)
  /\ Layout.right_col_x Scenario.window = 725
  /\ head (Layout.placements Scenario.mono Scenario.window
             (Scenario.first_column ++ [Scenario.line "again"]))
     = Some (Blit "hello" Scenario.black (40, 40))
  /\ last (Layout.placements Scenario.mono Scenario.window
             (Scenario.first_column ++ [Scenario.line "again"]))
     = Some (Blit "again" Scenario.black (40, 40))
  /\ last (Layout.placements Scenario.mono Scenario.window
             (replicate 23 (Scenario.line "hello")
              ++ [[("incomprehensibilities"%string, Scenario.black);
                   ("counterrevolutionaries"%string, Scenario.black)]]))
     = Some (Blit "counterrevolutionaries" Scenario.black (725, 40)).
Proof. vm_compute. repeat split. Qed.

(** C9: the layout engine is deterministic in its inputs. Two runs on the
    same transcript, on surfaces of the same width and height (whatever was
    drawn on them before) and with fonts of the same metrics, add the same
    (word, colour, position) placements in the same order and return the
    same overflow flag. *)
Theorem C9_layout_is_deterministic (font1 font2 : Font.t) (s1 s2 : Surface.t)
    (transcript : list Layout.TextChunk) :
  Font.same_metrics font1 font2 ->
  Surface.get_width s1 = Surface.get_width s2 ->
  Surface.get_height s1 = Surface.get_height s2 ->
  Layout.placements font1 s1 transcript = Layout.placements font2 s2 transcript
  /\ snd (Layout.draw_text_in_columns font1 s1 transcript)
     = snd (Layout.draw_text_in_columns font2 s2 transcript).
Proof. apply LayoutFacts.draw_text_in_columns_sim. Qed.

Lemma C9_layout_is_deterministic_witness :
  Font.same_metrics Scenario.mono Scenario.mono'
  /\ Layout.placements Scenario.mono Scenario.window Scenario.to_last_line
     = Layout.placements Scenario.mono' Scenario.used_window Scenario.to_last_line
  /\ snd (Layout.draw_text_in_columns Scenario.mono Scenario.window
            Scenario.to_last_line)
     = snd (Layout.draw_text_in_columns Scenario.mono' Scenario.used_window
              Scenario.to_last_line).
Proof.
  assert (Font.same_metrics Scenario.mono Scenario.mono') as Hm.
  { split; [|reflexivity]. intros text. simpl. f_equal. lia. }
  split; [exact Hm|].
  exact (C9_layout_is_deterministic Scenario.mono Scenario.mono' Scenario.window
           Scenario.used_window Scenario.to_last_line Hm eq_refl eq_refl).
Defined.

(** C10 (as stated, refuted): a word wider than the column is not always
    drawn. With the cursor at the start of the last line of the second
    column, a word of 45 characters (810 pixels, the column has 435) makes
    the engine break the line, find the new line below the column, set the
    overflow flag and leave the loop: the word is never drawn, while a
    short word at the same place is drawn without overflow. *)
Lemma C10_wide_word_on_last_line_is_dropped :
  let st := Layout.draw_chunks Scenario.mono Scenario.to_last_line
              (Layout.start Scenario.window) in
  Layout.col_width Scenario.window < fst (Font.size Scenario.mono Scenario.long_word)
  /\ (Layout.screen_full st, Layout.current_col_x st, Layout.current_line_x st,
      Layout.col_y st) = (false, 725, 725, 730)
  /\ Layout.screen_full
       (Layout.place_word Scenario.mono (Scenario.long_word, Scenario.black) st) = true
  /\ Layout.surface
       (Layout.place_word Scenario.mono (Scenario.long_word, Scenario.black) st)
     = Layout.surface st
  /\ Layout.screen_full
       (Layout.place_word Scenario.mono ("hello"%string, Scenario.black) st) = false
  /\ Layout.placements Scenario.mono Scenario.window
       (Scenario.to_last_line ++ [Scenario.line Scenario.long_word])
     = Layout.placements Scenario.mono Scenario.window Scenario.to_last_line
  /\ snd (Layout.draw_text_in_columns Scenario.mono Scenario.window
            (Scenario.to_last_line ++ [Scenario.line Scenario.long_word])) = true.
Proof. vm_compute. repeat split. Qed.

(** C10 (amended): for every word wider than the column, met with the
    cursor inside the current column, the engine breaks the line. If the
    new line is below the bottom of the second column it sets the overflow
    flag and does not draw the word. Otherwise it draws the word exactly
    once, at the start of the new line (at the top of the second column
    when the new line is below the first), without checking the right edge
    again, so that the word extends past the right edge of its column. *)
Theorem C10_wide_word (font : Font.t) (st : Layout.State) (word : string)
    (color : Color) :
  Layout.col_width (Layout.surface st) < fst (Font.size font word) ->
  Layout.current_col_x st <= Layout.current_line_x st ->
  let width := fst (Font.size font word) in
  let height := snd (Font.size font word) in
  let s := Layout.surface st in
  let st' := Layout.place_word font (word, color) st in
  if (Surface.get_height s - Layout.margin <? Layout.col_y st + height + height)
     && negb (Layout.current_col_x st =? Layout.left_col_x)
  then Layout.screen_full st' = true /\ Layout.surface st' = s
  else Layout.screen_full st' = false
       /\ Surface.ops (Layout.surface st')
          = Surface.ops s
            ++ [Blit word color (Layout.current_col_x st', Layout.col_y st')]
       /\ Layout.current_col_x st' + Layout.col_width s
          < Layout.current_col_x st' + width
       /\ (if Surface.get_height s - Layout.margin <? Layout.col_y st + height + height
           then Layout.current_col_x st = Layout.left_col_x
                /\ Layout.current_col_x st' = Layout.right_col_x s
                /\ Layout.col_y st' = Layout.margin
           else Layout.current_col_x st' = Layout.current_col_x st
                /\ Layout.col_y st' = Layout.col_y st + height).
Proof.
  intros Hwide Hin width height s st'.
  assert (Layout.current_col_x st + Layout.col_width s
          < Layout.current_line_x st + width) as Hbreak by (subst width s; lia).
  destruct (Z.ltb_spec (Surface.get_height s - Layout.margin)
              (Layout.col_y st + height + height)) as [Hlow|Hfits];
    [destruct (Z.eqb_spec (Layout.current_col_x st) Layout.left_col_x) as [Hleft|Hright]|];
    cbn [andb negb]; subst st' width height s.
  - rewrite (LayoutSteps.place_word_second_column font word color st Hbreak Hlow Hleft).
    cbn [Layout.screen_full Layout.surface Layout.current_col_x Layout.col_y
         Surface.ops Surface.draw].
    split; [reflexivity|]. split; [reflexivity|]. split; [lia|]. done.
  - rewrite (LayoutSteps.place_word_overflow font word color st Hbreak Hlow Hright).
    done.
  - rewrite (LayoutSteps.place_word_new_line font word color st Hbreak Hfits).
    cbn [Layout.screen_full Layout.surface Layout.current_col_x Layout.col_y
         Surface.ops Surface.draw].
    split; [reflexivity|]. split; [reflexivity|]. split; [lia|]. done.
Qed.

Lemma C10_wide_word_witness :
  Layout.col_width Scenario.window < fst (Font.size Scenario.mono Scenario.long_word)
  /\ Layout.current_col_x (Layout.start Scenario.window)
     <= Layout.current_line_x (Layout.start Scenario.window)
  /\ Surface.ops (Layout.surface
       (Layout.place_word Scenario.mono (Scenario.long_word, Scenario.black)
          (Layout.start Scenario.window)))
     = [Blit Scenario.long_word Scenario.black (40, 70)].
Proof.
  assert (Layout.col_width Scenario.window
          < fst (Font.size Scenario.mono Scenario.long_word)) as H1
    by (vm_compute; reflexivity).
  assert (Layout.current_col_x (Layout.start Scenario.window)
          <= Layout.current_line_x (Layout.start Scenario.window)) as H2
    by (vm_compute; discriminate).
  split; [exact H1|]. split; [exact H2|].
  pose proof (C10_wide_word Scenario.mono (Layout.start Scenario.window)
                Scenario.long_word Scenario.black H1 H2) as H.
  cbv zeta in H.
  change ((Surface.get_height (Layout.surface (Layout.start Scenario.window))
           - Layout.margin
           <? Layout.col_y (Layout.start Scenario.window)
              + snd (Font.size Scenario.mono Scenario.long_word)
              + snd (Font.size Scenario.mono Scenario.long_word))
          && negb (Layout.current_col_x (Layout.start Scenario.window)
                   =? Layout.left_col_x)) with false in H.
  cbv iota in H. destruct H as (_ & H & _).
  rewrite H. reflexivity.
Defined.

(** ** Claim on the emotion classifier *)

Module EmotionFacts.

(** The colour of a word depends on the word through its lower-case form
    only. *)
Lemma word_color_lower affect_dict w1 w2 :
  PyStr.lower w1 = PyStr.lower w2 ->
  Emotion.word_color affect_dict w1 = Emotion.word_color affect_dict w2.
Proof. intros H. unfold Emotion.word_color. by rewrite H. Qed.

(** The first tag of the affect list decides. *)
Lemma word_color_first_tag (affect_dict : gmap string (list string)) word tag rest :
  affect_dict !! PyStr.lower word = Some (tag :: rest) ->
  Emotion.word_color affect_dict word
  = default Emotion.DEFAULT_TEXT_COLOR (Emotion.EMOTION_COLORS !! tag).
Proof.
  intros Hd. unfold Emotion.word_color. rewrite Hd. simpl.
  by destruct (Emotion.EMOTION_COLORS !! tag).
Qed.

Lemma word_color_default (affect_dict : gmap string (list string)) word :
  affect_dict !! PyStr.lower word = None
  \/ affect_dict !! PyStr.lower word = Some [] ->
  Emotion.word_color affect_dict word = Emotion.DEFAULT_TEXT_COLOR.
Proof. intros [Hd|Hd]; unfold Emotion.word_color; by rewrite Hd. Qed.

(** The analysis of a text knows a key exactly when the key is written in
    the text and the lexicon has it. *)
Lemma affect_dict_fold (lexicon : gmap string (list string)) key words :
  forall d : gmap string (list string),
    foldl (fun d word =>
             match lexicon !! word with
             | Some tags => <[word := tags]> d
             | None => d
             end) d words !! key
    = match (if decide (key ∈ words) then lexicon !! key else None) with
      | Some tags => Some tags
      | None => d !! key
      end.
Proof.
  induction words as [|w words IH]; intros d; simpl.
  - done.
  - rewrite IH. clear IH.
    assert ((match lexicon !! w with
             | Some tags => <[w := tags]> d
             | None => d
             end) !! key
            = if decide (key = w)
              then match lexicon !! key with
                   | Some tags => Some tags
                   | None => d !! key
                   end
              else d !! key) as ->.
    { destruct (decide (key = w)) as [->|Hne].
      - destruct (lexicon !! w); [by rewrite lookup_insert_eq|done].
      - destruct (lexicon !! w); [by rewrite lookup_insert_ne|done]. }
    destruct (decide (key ∈ w :: words)) as [Hcons|Hcons];
      destruct (decide (key ∈ words)) as [Hin|Hin];
      destruct (decide (key = w)) as [Heq|Heq];
      try (by destruct (lexicon !! key));
      exfalso;
      first [ apply elem_of_cons in Hcons as [?|?]; done
            | apply Hcons, elem_of_cons; first [by left | by right] ].
Qed.

Lemma affect_dict_lookup (lexicon : gmap string (list string)) words key :
  NRCLex.affect_dict lexicon words !! key
  = if decide (key ∈ words) then lexicon !! key else None.
Proof.
  unfold NRCLex.affect_dict. rewrite affect_dict_fold.
  destruct (decide (key ∈ words)); [by destruct (lexicon !! key)|done].
Qed.

End EmotionFacts.

(** C4 (the code at the failing input): the word is lower-cased, but it is
    looked up in the analysis of the fragment, which holds a word only as
    it is written in the fragment. The colour of a word is therefore the
    one the lexicon gives for its lower-case form only if that lower-case
    form itself is a word of the fragment, and the default colour
    otherwise. With the lexicon [{"happy": ["joy"]}], "I am happy" gives
    the tokens of the specification, but in "I am Happy" the analysis is
    empty and "Happy" has the default colour although the lexicon maps
    "happy" to joy; in "Happy people are happy" both forms have the colour
    of joy. *)
Theorem C4_capitalised_word_misses_the_lexicon :
  (forall (lexicon : gmap string (list string)) words word,
      Emotion.word_color (NRCLex.affect_dict lexicon words) word
      = if decide (PyStr.lower word ∈ words)
        then Emotion.word_color lexicon word
        else Emotion.DEFAULT_TEXT_COLOR)
  /\ Scenario.happy_lexicon !! PyStr.lower "Happy" = Some ["joy"%string]
  /\ Emotion.EMOTION_COLORS !! "joy"%string = Some (255, 165, 0)
  /\ Scenario.happy_analysis "I am Happy" = ∅
  /\ Emotion.new_chunk (Scenario.happy_analysis "I am Happy") "I am Happy"
     = [("I"%string, Emotion.DEFAULT_TEXT_COLOR);
        ("am"%string, Emotion.DEFAULT_TEXT_COLOR);
        ("Happy"%string, Emotion.DEFAULT_TEXT_COLOR)]
  /\ App.word_color_chunks
       (snd (App.take_text Scenario.happy_analysis
               (Pipeline.mkWorld Queue.new (Queue.mk 0 ["I am Happy"%string]) true
                                 Pipeline.Ready : Pipeline.World Scenario.Chunk)
               App.initial))
     = [[("I"%string, Emotion.DEFAULT_TEXT_COLOR);
         ("am"%string, Emotion.DEFAULT_TEXT_COLOR);
         ("Happy"%string, Emotion.DEFAULT_TEXT_COLOR)]]
  /\ Emotion.new_chunk (Scenario.happy_analysis "I am happy") "I am happy"
     = [("I"%string, Emotion.DEFAULT_TEXT_COLOR);
        ("am"%string, Emotion.DEFAULT_TEXT_COLOR);
        ("happy"%string, (255, 165, 0))]
  /\ Emotion.new_chunk (Scenario.happy_analysis "Happy people are happy")
                       "Happy people are happy"
     = [("Happy"%string, (255, 165, 0));
        ("people"%string, Emotion.DEFAULT_TEXT_COLOR);
        ("are"%string, Emotion.DEFAULT_TEXT_COLOR);
        ("happy"%string, (255, 165, 0))].
Proof.
  split.
  - intros lexicon words word. unfold Emotion.word_color.
    rewrite EmotionFacts.affect_dict_lookup.
    by destruct (decide (PyStr.lower word ∈ words)).
  - vm_compute. repeat split.
Qed.

(** ** Claims on the counters and on the lifecycle *)

Module LightnessFacts.
Import App.

Lemma ratio_nonneg (total : Z) :
  0 <= total ->
  (0 <= inject_Z total / inject_Z TARGET_CHARS_FOR_RELEASE)%Q.
Proof.
  intros H. apply Qle_shift_div_l; [reflexivity|].
  rewrite Qmult_0_l. change 0%Q with (inject_Z 0). by rewrite <- Zle_Qle.
Qed.

Lemma lightness_is_clamp (total : Z) :
  0 <= total ->
  (lightness_level total
   == clamp (inject_Z total / inject_Z TARGET_CHARS_FOR_RELEASE) 0 1)%Q
  /\ (0 <= lightness_level total)%Q
  /\ (lightness_level total <= 1)%Q.
Proof.
  intros H. pose proof (ratio_nonneg total H) as Hr.
  assert (0 <= lightness_level total)%Q as H0.
  { unfold lightness_level. apply Q.min_glb; [discriminate|exact Hr]. }
  split; [|split].
  - unfold clamp. symmetry. apply Q.max_r. exact H0.
  - exact H0.
  - unfold lightness_level. apply Q.le_min_l.
Qed.

End LightnessFacts.

(** C6: over every run of the main loop [total_chars] never decreases;
    after every run from the start of the program the lightness level is
    [clamp(total_chars / target_chars, 0, 1)] and lies between 0 and 1;
    with the target of 500 characters, 250 characters give 0.5, which is
    the level after ten iterations that take ten fragments of 25
    characters. *)
Theorem C6_total_chars_and_lightness (AudioChunk : Type)
    (NRCLex_affect_dict : string -> gmap string (list string))
    (pixel_font : Font.t) :
  (forall inputs (wm : Pipeline.World AudioChunk * App.Main),
      App.total_chars (snd wm)
      <= App.total_chars (snd (App.main_loop NRCLex_affect_dict pixel_font inputs wm)))
  /\ (forall events stream_opens (wm : Pipeline.World AudioChunk * App.Main),
      App.total_chars (snd wm)
      <= App.total_chars
           (snd (App.frame NRCLex_affect_dict pixel_font events stream_opens wm)))
  /\ (forall inputs (w : Pipeline.World AudioChunk),
      let total :=
        App.total_chars
          (snd (App.main_loop NRCLex_affect_dict pixel_font inputs (w, App.initial))) in
      (App.lightness_level total
       == App.clamp (inject_Z total / inject_Z App.TARGET_CHARS_FOR_RELEASE) 0 1)%Q
      /\ (0 <= App.lightness_level total)%Q
      /\ (App.lightness_level total <= 1)%Q)
  /\ App.TARGET_CHARS_FOR_RELEASE = 500
  /\ (App.lightness_level 250 == 1 # 2)%Q
  /\ (let after :=
        snd (App.main_loop Scenario.happy_analysis Scenario.mono
               (replicate 10 ([], true))
               (Scenario.ten_fragments_waiting, Scenario.recording)) in
      App.total_chars after = 250
      /\ (App.lightness_level (App.total_chars after) == 1 # 2)%Q).
Proof.
  split; [|split; [|split; [|split; [|split]]]].
  - intros inputs wm. apply AppFacts.main_loop_total.
  - intros events opens [w m]. apply AppFacts.frame_total.
  - intros inputs w total. apply LightnessFacts.lightness_is_clamp.
    subst total.
    apply (AppFacts.main_loop_total NRCLex_affect_dict pixel_font inputs (w, App.initial)).
  - reflexivity.
  - reflexivity.
  - vm_compute. split; reflexivity.
Qed.

Module LifecycleFacts.
Import App.




End LifecycleFacts.



(** C1 (the code at the failing input): the handler of a click on the
    Resume button sets RUNNING and restarts the stream whatever the
    transcript is; only the drawing of the button looks at the overflow. So
    in the state paused by a full screen, where the button is not drawn, a
    click at (800, 750) makes the iteration run as RUNNING: the stream is
    started, the next fragment is taken from the text queue and counted
    (240 characters become 250, 48 chunks become 49), and only then is the
    state set back to FINISHED by the overflow check. Without the click
    the same iteration takes nothing. *)
Theorem C1_resume_click_after_overflow :
  let paused := snd Scenario.paused_by_overflow in
  let resumed := App.handle_event paused Scenario.click_on_resume in
  let after :=
    App.frame Scenario.happy_analysis Scenario.mono [Scenario.click_on_resume] true
              Scenario.paused_by_overflow in
  let idle :=
    App.frame Scenario.happy_analysis Scenario.mono [] true
              Scenario.paused_by_overflow in
  (forall chunks total run active stream scr shots,
      App.app_state
        (App.handle_event
           (App.mkMain App.FINISHED chunks total run active stream scr shots)
           Scenario.click_on_resume) = App.RUNNING)
  /\ (App.app_state paused,
      snd (Layout.draw_text_in_columns Scenario.mono Scenario.window
             (App.word_color_chunks paused)),
      last (Surface.ops (App.screen paused)))
     = (App.FINISHED, true,
        Some (Button App.save_button_rect "Save Screenshot"))
  /\ (Rect.collidepoint App.resume_button_rect (800, 750),
      Rect.collidepoint App.save_button_rect (800, 750)) = (true, false)
  /\ (App.app_state resumed, App.stream resumed) = (App.RUNNING, App.Started)
  /\ (Queue.items (Pipeline.text_queue (fst Scenario.paused_by_overflow)),
      Queue.items (Pipeline.text_queue (fst after)),
      Queue.items (Pipeline.text_queue (fst idle)))
     = (["I am happy"%string], [], ["I am happy"%string])
  /\ (App.total_chars paused, App.total_chars (snd after), App.total_chars (snd idle))
     = (240, 250, 240)
  /\ (length (App.word_color_chunks paused),
      length (App.word_color_chunks (snd after))) = (48%nat, 49%nat)
  /\ (App.app_state (snd after), App.stream (snd after)) = (App.FINISHED, App.Halted).
Proof.
  split; [intros; reflexivity|].
  vm_compute. repeat split.
Qed.

(* ===================================================================== *)
(** * Further properties of the code *)
(* ===================================================================== *)

(** ** Strings *)

Module PyStrFacts.
Import PyStr.

Lemma split_go_started cur s : cur <> [] -> split_go cur s <> [].
Proof.
  revert cur. induction s as [|c r IH]; intros cur H; simpl.
  - by destruct cur.
  - destruct (isspace c); [by destruct cur|]. by apply IH.
Qed.

Lemma lstrip_head s :
  lstrip s = EmptyString \/ exists c r, lstrip s = String c r /\ isspace c = false.
Proof.
  induction s as [|c r IH]; simpl; [by left|].
  destruct (isspace c) eqn:E; [exact IH|]. right. by exists c, r.
Qed.

Lemma rstrip_head c r :
  isspace c = false -> exists r', rstrip (String c r) = String c r'.
Proof.
  intros E. simpl. destruct (rstrip r); rewrite ?E; by eexists.
Qed.

(** A text that is not empty after [strip] starts with a character that
    is not a space. *)
Lemma strip_truthy s :
  truthy (strip s) = true ->
  exists c r, strip s = String c r /\ isspace c = false.
Proof.
  unfold strip. intros H.
  destruct (lstrip_head s) as [E|(c & r & E & Hc)]; rewrite E in *.
  - done.
  - destruct (rstrip_head c r Hc) as [r' Hr]. rewrite Hr. by exists c, r'.
Qed.

Lemma split_strip s : truthy (strip s) = true -> split (strip s) <> [].
Proof.
  intros H. destruct (strip_truthy s H) as (c & r & -> & Hc).
  unfold split. simpl. rewrite Hc. by apply split_go_started.
Qed.

Lemma len_truthy s : truthy s = true -> 0 < len s.
Proof. destruct s; [done|]. intros _. unfold len. simpl. lia. Qed.

End PyStrFacts.

(** ** More on the worker *)

Module WorkerFacts.
Import Pipeline.
Section Facts.
Context {AudioChunk : Type}.
Variable model_loads : bool.
Variable transcribe : AudioChunk -> option (list string).
Local Abbreviation World := (World AudioChunk).
Local Abbreviation worker_step := (worker_step model_loads transcribe).
Local Abbreviation worker_run := (worker_run model_loads transcribe).

Lemma run_add n k (w : World) :
  worker_run (n + k) w = worker_run k (worker_run n w).
Proof. revert w. induction n as [|n IH]; intros w; simpl; [done|apply IH]. Qed.

(** With a sentinel somewhere on the audio queue the worker has stopped
    after as many moves as there are items. *)
Lemma run_reaches_sentinel items : forall k old ml,
  In None items ->
  worker (worker_run (length items)
            (mkWorld (Queue.mk k items) (Queue.mk 0 old) ml Ready)) = Stopped.
Proof.
  induction items as [|x items IH]; intros k old ml Hin; [done|].
  change (worker_run (length (x :: items)) ?w)
    with (worker_run (length items) (worker_step w)).
  destruct x as [c|].
  - destruct Hin as [Hin|Hin]; [done|].
    unfold Pipeline.worker_step; simpl.
    destruct (transcribe c) as [segments|].
    + destruct (PyStr.truthy (transcription_of segments)); by apply IH.
    + by rewrite PipelineFacts.run_stopped.
  - by rewrite PipelineFacts.step_sentinel, PipelineFacts.run_stopped.
Qed.

End Facts.
End WorkerFacts.

Module TBDFacts.
Section Facts.
Context {AudioChunk : Type}.
Variable transcribe : AudioChunk -> option (list string).
Local Abbreviation worker_step := (TBD.worker_step transcribe).
Local Abbreviation worker_run := (TBD.worker_run transcribe).

Lemma run_dead n : forall w : TBD.World AudioChunk,
  TBD.alive w = false -> worker_run n w = w.
Proof.
  induction n as [|n IH]; intros w H; simpl; [done|].
  assert (worker_step w = w) as -> by (unfold TBD.worker_step; by rewrite H).
  by apply IH.
Qed.

Lemma run_idle n : forall k printed,
  worker_run n (TBD.mkWorld (Queue.mk k []) printed true)
  = TBD.mkWorld (Queue.mk k []) printed true.
Proof. induction n as [|n IH]; intros k printed; simpl; [done|apply IH]. Qed.

Lemma run_chunks chunks : forall k rest printed,
  Forall (fun c => is_Some (transcribe c)) chunks ->
  worker_run (length chunks) (TBD.mkWorld (Queue.mk k (chunks ++ rest)) printed true)
  = TBD.mkWorld (Queue.mk k rest)
                (printed ++ Pipeline.fragments transcribe chunks) true.
Proof.
  induction chunks as [|c chunks IH]; intros k rest printed Hall.
  - simpl. by rewrite app_nil_r.
  - inversion Hall as [|? ? [segments Hc] Hrest]; subst.
    change (worker_run (length (c :: chunks)) ?w)
      with (worker_run (length chunks) (worker_step w)).
    unfold TBD.worker_step. simpl. rewrite Hc.
    unfold Pipeline.transcription_of.
    destruct (PyStr.truthy (PyStr.strip (PyStr.join segments))).
    + rewrite IH by exact Hrest. by rewrite <- app_assoc.
    + by rewrite IH.
Qed.

End Facts.
End TBDFacts.

(** ** More on the layout engine *)

Module LayoutMore.
Import Layout.
Section Facts.
Variable font : Font.t.

(** Once the screen is full nothing that follows is looked at. *)
Lemma draw_chunks_full chunks more : forall st,
  screen_full st = false ->
  screen_full (draw_chunks font chunks st) = true ->
  draw_chunks font (chunks ++ more) st = draw_chunks font chunks st.
Proof.
  induction chunks as [|chunk chunks IH]; intros st Hst Hfull; simpl in *.
  - congruence.
  - destruct (screen_full (draw_words font chunk st)); [done|].
    destruct (screen_full (end_chunk font (draw_words font chunk st))) eqn:E;
      [done|]. by apply IH.
Qed.

(** What one word adds to the surface. *)
Lemma place_word_ops wc st :
  exists pos,
    Surface.ops (surface (place_word font wc st))
    = Surface.ops (surface st)
      ++ (if screen_full (place_word font wc st) then []
          else [Blit (fst wc) (snd wc) pos]).
Proof.
  destruct wc as [word color]. unfold place_word.
  destruct (Font.size font word) as [w h]. cbn [fst snd].
  repeat case_match;
    cbn [surface screen_full Surface.draw Surface.ops];
    rewrite ?app_nil_r; first [by exists (0, 0) | by eexists].
Qed.

Lemma draw_words_ops chunk : forall st,
  exists added rest,
    Surface.ops (surface (draw_words font chunk st)) = Surface.ops (surface st) ++ added
    /\ chunk = tokens_of added ++ rest
    /\ (screen_full (draw_words font chunk st) = false -> rest = []).
Proof.
  induction chunk as [|wc chunk IH]; intros st; simpl.
  - exists [], []. by rewrite app_nil_r.
  - destruct (place_word_ops wc st) as [pos Hp].
    destruct (screen_full (place_word font wc st)) eqn:E.
    + exists [], (wc :: chunk). rewrite Hp, E. done.
    + destruct (IH (place_word font wc st)) as (added & rest & Ho & Hc & Hr).
      exists (Blit (fst wc) (snd wc) pos :: added), rest. rewrite Ho, Hp.
      split; [by rewrite <- app_assoc|].
      split; [|exact Hr]. unfold tokens_of in *. cbn [omap token_of].
      destruct wc. cbn [fst snd]. simpl. by rewrite Hc.
Qed.

Lemma end_chunk_surface st : surface (end_chunk font st) = surface st.
Proof. unfold end_chunk. by repeat case_match. Qed.

Lemma draw_chunks_ops chunks : forall st,
  exists added rest,
    Surface.ops (surface (draw_chunks font chunks st)) = Surface.ops (surface st) ++ added
    /\ concat chunks = tokens_of added ++ rest
    /\ (screen_full (draw_chunks font chunks st) = false -> rest = []).
Proof.
  induction chunks as [|chunk chunks IH]; intros st; simpl.
  - exists [], []. by rewrite app_nil_r.
  - destruct (draw_words_ops chunk st) as (added1 & rest1 & Ho1 & Hc1 & Hr1).
    destruct (screen_full (draw_words font chunk st)) eqn:E1.
    + exists added1, (rest1 ++ concat chunks). rewrite E1.
      split; [exact Ho1|]. split; [|done]. by rewrite Hc1, <- app_assoc.
    + rewrite (Hr1 eq_refl), app_nil_r in Hc1.
      destruct (screen_full (end_chunk font (draw_words font chunk st))) eqn:E2.
      * exists added1, (concat chunks). rewrite E2.
        rewrite end_chunk_surface. split; [exact Ho1|]. split; [|done].
        by rewrite Hc1.
      * destruct (IH (end_chunk font (draw_words font chunk st)))
          as (added2 & rest2 & Ho2 & Hc2 & Hr2).
        exists (added1 ++ added2), rest2. rewrite Ho2, end_chunk_surface, Ho1.
        split; [by rewrite app_assoc|]. split; [|exact Hr2].
        unfold tokens_of in *. by rewrite omap_app, Hc1, Hc2, app_assoc.
Qed.

End Facts.
End LayoutMore.

(** *** Inside the margins *)

Module LayoutBounds.
Import Layout.
Section Facts.
Variable font : Font.t.
Variable h : Z.
Hypothesis word_height : forall word, snd (Font.size font word) = h.
Hypothesis line_height : Font.get_height font = h.
Hypothesis height_nonneg : 0 <= h.
Hypothesis width_nonneg : forall word, 0 <= fst (Font.size font word).
Hypothesis space_nonneg : 0 <= space_width font.

Lemma right_col_x_margin s : 0 <= Surface.get_width s -> margin <= right_col_x s.
Proof.
  intros H. unfold right_col_x, col_width, person_area_width, margin.
  pose proof (Z.mul_div_le (Surface.get_width s - 250 - 2 * 40) 2 ltac:(lia)).
  lia.
Qed.

Lemma within_margins_height s s' op :
  Surface.get_height s' = Surface.get_height s ->
  within_margins s' h op -> within_margins s h op.
Proof. unfold within_margins. by intros ->. Qed.

(** One word: either the screen is full and nothing is drawn, or the word
    is drawn inside the margins and the cursor stays inside. *)
Lemma place_word_inside wc st :
  cursor_inside h st ->
  0 <= Surface.get_width (surface st) ->
  let st' := place_word font wc st in
  Surface.get_width (surface st') = Surface.get_width (surface st)
  /\ Surface.get_height (surface st') = Surface.get_height (surface st)
  /\ ((screen_full st' = true /\ surface st' = surface st)
      \/ (screen_full st' = false /\ cursor_inside h st'
          /\ exists op, Surface.ops (surface st') = Surface.ops (surface st) ++ [op]
                        /\ within_margins (surface st) h op)).
Proof.
  intros (Hy1 & Hy2 & Hx & Hc) HW st'. subst st'. destruct wc as [word color].
  pose proof (word_height word) as Hh. pose proof (width_nonneg word) as Hw.
  pose proof (right_col_x_margin _ HW) as Hr.
  destruct (Z.le_gt_cases (current_line_x st + fst (Font.size font word))
              (current_col_x st + col_width (surface st))) as [Hfit|Hbreak].
  { rewrite (LayoutSteps.place_word_fits font word color st Hfit).
    cbn [surface screen_full]. do 2 (split; [reflexivity|]). right.
    split; [reflexivity|]. unfold cursor_inside, within_margins; simpl.
    split; [lia|]. eexists. split; [reflexivity|]. simpl. lia. }
  destruct (Z.le_gt_cases (col_y st + snd (Font.size font word)
                           + snd (Font.size font word))
              (Surface.get_height (surface st) - margin)) as [Hroom|Hlow].
  { rewrite (LayoutSteps.place_word_new_line font word color st Hbreak Hroom).
    cbn [surface screen_full]. do 2 (split; [reflexivity|]). right.
    split; [reflexivity|]. unfold cursor_inside, within_margins; simpl.
    rewrite Hh in *. split; [lia|]. eexists. split; [reflexivity|]. simpl. lia. }
  destruct (Z.eq_dec (current_col_x st) left_col_x) as [Hleft|Hright].
  - rewrite (LayoutSteps.place_word_second_column font word color st Hbreak Hlow Hleft).
    cbn [surface screen_full]. do 2 (split; [reflexivity|]). right.
    split; [reflexivity|]. unfold cursor_inside, within_margins; simpl.
    split; [lia|]. eexists. split; [reflexivity|]. simpl. lia.
  - rewrite (LayoutSteps.place_word_overflow font word color st Hbreak Hlow Hright).
    cbn [surface screen_full]. do 2 (split; [reflexivity|]). by left.
Qed.

Lemma end_chunk_inside st :
  cursor_inside h st ->
  0 <= Surface.get_width (surface st) ->
  screen_full (end_chunk font st) = true \/ cursor_inside h (end_chunk font st).
Proof.
  intros (Hy1 & Hy2 & Hx & Hc) HW.
  pose proof (right_col_x_margin _ HW) as Hr.
  destruct (Z.le_gt_cases (col_y st + Font.get_height font + Font.get_height font)
              (Surface.get_height (surface st) - margin)) as [Hroom|Hlow].
  { rewrite (LayoutSteps.end_chunk_new_line font st Hroom). right.
    unfold cursor_inside; simpl. lia. }
  destruct (Z.eq_dec (current_col_x st) left_col_x) as [Hleft|Hright].
  - rewrite (LayoutSteps.end_chunk_second_column font st Hlow Hleft). right.
    unfold cursor_inside, left_col_x; simpl. lia.
  - left. by apply LayoutSteps.end_chunk_overflow.
Qed.

Lemma draw_words_inside chunk : forall st,
  cursor_inside h st ->
  0 <= Surface.get_width (surface st) ->
  let st' := draw_words font chunk st in
  Surface.get_width (surface st') = Surface.get_width (surface st)
  /\ Surface.get_height (surface st') = Surface.get_height (surface st)
  /\ (screen_full st' = false -> cursor_inside h st')
  /\ exists added, Surface.ops (surface st') = Surface.ops (surface st) ++ added
                   /\ Forall (within_margins (surface st) h) added.
Proof.
  induction chunk as [|wc chunk IH]; intros st Hin HW; cbn zeta.
  - simpl. do 2 (split; [reflexivity|]). split; [done|].
    exists []. by rewrite app_nil_r.
  - simpl.
    destruct (place_word_inside wc st Hin HW) as (Hw1 & Hh1 & [[Hf Hs]|(Hf & Hin1 & op & Ho & Hop)]);
      rewrite Hf.
    + split; [exact Hw1|]. split; [exact Hh1|]. split; [by rewrite Hf|].
      exists []. rewrite Hs, app_nil_r. done.
    + destruct (IH (place_word font wc st) Hin1) as (Hw2 & Hh2 & Hin2 & added & Ho2 & Hall);
        [by rewrite Hw1|].
      split; [by rewrite Hw2|]. split; [by rewrite Hh2|]. split; [exact Hin2|].
      exists (op :: added). rewrite Ho2, Ho. split; [by rewrite <- app_assoc|].
      constructor; [exact Hop|].
      eapply Forall_impl; [exact Hall|]. intros op'.
      by apply within_margins_height.
Qed.

Lemma draw_chunks_inside chunks : forall st,
  cursor_inside h st ->
  0 <= Surface.get_width (surface st) ->
  exists added,
    Surface.ops (surface (draw_chunks font chunks st)) = Surface.ops (surface st) ++ added
    /\ Forall (within_margins (surface st) h) added.
Proof.
  induction chunks as [|chunk chunks IH]; intros st Hin HW; simpl.
  - exists []. by rewrite app_nil_r.
  - destruct (draw_words_inside chunk st Hin HW) as (Hw1 & Hh1 & Hin1 & added1 & Ho1 & Hall1).
    destruct (screen_full (draw_words font chunk st)) eqn:E1; [by exists added1|].
    specialize (Hin1 eq_refl).
    destruct (end_chunk_inside _ Hin1) as [Hfull|Hin2]; [by rewrite Hw1|..].
    + rewrite Hfull. exists added1. by rewrite LayoutMore.end_chunk_surface.
    + destruct (screen_full (end_chunk font (draw_words font chunk st))) eqn:E2.
      { exists added1. by rewrite LayoutMore.end_chunk_surface. }
      destruct (IH _ Hin2) as (added2 & Ho2 & Hall2).
      { by rewrite LayoutMore.end_chunk_surface, Hw1. }
      rewrite LayoutMore.end_chunk_surface in Ho2, Hall2.
      exists (added1 ++ added2). rewrite Ho2, Ho1. split; [by rewrite app_assoc|].
      apply Forall_app. split; [exact Hall1|].
      eapply Forall_impl; [exact Hall2|]. intros op'.
      by apply within_margins_height.
Qed.

End Facts.
End LayoutBounds.

(** ** More on the main loop *)

Module AppMore.
Import App.

Lemma handle_event_agrees m e : stream_agrees m -> stream_agrees (handle_event m e).
Proof.
  destruct m as [a chunks total run active st scr shots].
  unfold stream_agrees, handle_event.
  destruct a; simpl; intros [-> ->]; destruct e; simpl; repeat case_match; done.
Qed.

Lemma handle_events_agrees events : forall m,
  stream_agrees m -> stream_agrees (handle_events events m).
Proof.
  induction events as [|e events IH]; intros m H; [done|].
  unfold handle_events in *. simpl. apply IH. by apply handle_event_agrees.
Qed.

(** What one event can do to the screenshots. *)
Lemma handle_event_screenshots m e :
  screenshots (handle_event m e) = screenshots m
  \/ (app_state m = FINISHED
      /\ app_state (handle_event m e) = FINISHED
      /\ stream (handle_event m e) = stream m
      /\ screenshots (handle_event m e) = screenshots m ++ [screen m]
      /\ exists pos, e = MOUSEBUTTONDOWN pos
                     /\ Rect.collidepoint save_button_rect pos = true).
Proof.
  destruct m as [a chunks total run active st scr shots].
  unfold handle_event.
  destruct e as [| |pos|]; destruct a; simpl; try (by left).
  - destruct (Rect.collidepoint stop_button_rect pos); by left.
  - destruct (Rect.collidepoint save_button_rect pos) eqn:E.
    + right. simpl. repeat split. by exists pos.
    + destruct (Rect.collidepoint resume_button_rect pos); by left.
Qed.

(** Without a click the events leave the state as it is, except for
    ONBOARDING, which a key press turns into LOADING. *)
Lemma handle_event_no_click m e :
  is_click e = false ->
  app_state m <> ONBOARDING ->
  handle_event m e = set_running (running m && match e with QUIT => false | _ => true end) m.
Proof.
  destruct m as [a chunks total run active st scr shots].
  unfold handle_event, set_running.
  destruct e; destruct a; simpl; try done; intros _ _; by rewrite ?andb_true_r, ?andb_false_r.
Qed.

Lemma handle_events_no_click events : forall m,
  forallb (fun e => negb (is_click e)) events = true ->
  app_state m <> ONBOARDING ->
  handle_events events m
  = set_running (running m && forallb (fun e => match e with QUIT => false | _ => true end) events) m.
Proof.
  induction events as [|e events IH]; intros m Hall Hs.
  - destruct m. unfold set_running. simpl. by rewrite andb_true_r.
  - simpl in Hall. apply andb_true_iff in Hall as [He Hall].
    unfold handle_events in *. simpl.
    rewrite handle_event_no_click by (try done; by destruct (is_click e)).
    rewrite IH by done. destruct m. unfold set_running. simpl.
    by rewrite andb_assoc.
Qed.

(** The pause and the resume buttons do not overlap. *)
Lemma stop_resume_disjoint pos :
  Rect.collidepoint stop_button_rect pos = true ->
  Rect.collidepoint resume_button_rect pos = false.
Proof.
  unfold Rect.collidepoint, stop_button_rect, resume_button_rect; simpl.
  unfold WINDOW_WIDTH, WINDOW_HEIGHT. intros H.
  repeat (apply andb_true_iff in H as [H ?]).
  destruct (Z.ltb_spec (fst pos) (1200 - 460 + 170)); [|by rewrite !andb_false_r].
  apply Z.leb_le in H. lia.
Qed.

(** [int(255 * lightness_level)] is a colour value. *)
Lemma int_of_Q_floor x : (0 <= x)%Q -> int_of_Q x = Qfloor x.
Proof.
  intros H. unfold int_of_Q. destruct x as [n d]. simpl.
  unfold Qle in H. simpl in H. apply Z.quot_div_nonneg; lia.
Qed.

Lemma color_val_range (total : Z) :
  0 <= total ->
  0 <= int_of_Q (255 * lightness_level total) <= 255.
Proof.
  intros H.
  destruct (LightnessFacts.lightness_is_clamp total H) as (_ & H0 & H1).
  assert (0 <= 255 * lightness_level total)%Q as Hlo
    by (apply Qmult_le_0_compat; [discriminate|exact H0]).
  assert (255 * lightness_level total <= 255)%Q as Hhi.
  { apply Qle_trans with (255 * 1)%Q; [|discriminate].
    apply (proj2 (Qmult_le_l _ _ 255 eq_refl)). exact H1. }
  rewrite int_of_Q_floor by exact Hlo. split.
  - change 0 with (Qfloor 0). by apply Qfloor_resp_le.
  - change 255 with (Qfloor 255). by apply Qfloor_resp_le.
Qed.

Lemma color_val_full (total : Z) :
  TARGET_CHARS_FOR_RELEASE <= total ->
  int_of_Q (255 * lightness_level total) = 255.
Proof.
  intros H. unfold TARGET_CHARS_FOR_RELEASE in H.
  assert (lightness_level total == 1)%Q as E.
  { unfold lightness_level. apply Q.min_l.
    apply Qle_shift_div_l; [reflexivity|].
    rewrite Qmult_1_l. unfold TARGET_CHARS_FOR_RELEASE. by rewrite <- Zle_Qle. }
  rewrite int_of_Q_floor.
  - rewrite E. reflexivity.
  - rewrite E. discriminate.
Qed.

End AppMore.

Module FrameFacts.
Import App.
Section Loop.
Context {AudioChunk : Type}.
Variable NRCLex_affect_dict : string -> gmap string (list string).
Variable pixel_font : Font.t.
Local Abbreviation World := (Pipeline.World AudioChunk).
Local Abbreviation take_text := (@take_text AudioChunk NRCLex_affect_dict).
Local Abbreviation running_or_finished :=
  (@running_or_finished AudioChunk NRCLex_affect_dict pixel_font).
Local Abbreviation frame := (@frame AudioChunk NRCLex_affect_dict pixel_font).
Local Abbreviation main_loop := (@main_loop AudioChunk NRCLex_affect_dict pixel_font).
Local Abbreviation chunks_of := (chunks_of NRCLex_affect_dict).

Lemma agrees_same_control m m' : same_control m m' -> stream_agrees m -> stream_agrees m'.
Proof. unfold same_control, stream_agrees. by intros (-> & _ & -> & -> & _). Qed.

Lemma draw_controls_control full m : same_control m (draw_controls full m).
Proof. unfold draw_controls, same_control. by repeat case_match. Qed.

Lemma draw_controls_text full m : same_text m (draw_controls full m).
Proof. unfold draw_controls, same_text. by repeat case_match. Qed.

(** What [take_text] takes, counts and appends. *)
Lemma take_text_spec (w : World) m :
  exists taken,
    (length taken <= 1)%nat
    /\ Queue.items (Pipeline.text_queue w)
       = taken ++ Queue.items (Pipeline.text_queue (fst (take_text w m)))
    /\ total_chars (snd (take_text w m)) = total_chars m + chars_of taken
    /\ word_color_chunks (snd (take_text w m)) = word_color_chunks m ++ chunks_of taken
    /\ same_control m (snd (take_text w m))
    /\ screen (snd (take_text w m)) = screen m.
Proof.
  unfold App.take_text, Queue.get_nowait.
  destruct (Queue.items (Pipeline.text_queue w)) as [|t rest] eqn:E; simpl.
  - exists []. rewrite E. simpl. rewrite app_nil_r. repeat split; (done || lia).
  - exists [t]. simpl. unfold App.chunks_of. simpl.
    destruct (Emotion.new_chunk (NRCLex_affect_dict t) t);
      rewrite ?app_nil_r; repeat split; (done || lia).
Qed.

Lemma take_text_rest (w : World) m :
  Pipeline.audio_queue (fst (take_text w m)) = Pipeline.audio_queue w
  /\ Pipeline.model_loaded (fst (take_text w m)) = Pipeline.model_loaded w
  /\ Pipeline.worker (fst (take_text w m)) = Pipeline.worker w
  /\ Queue.maxsize (Pipeline.text_queue (fst (take_text w m)))
     = Queue.maxsize (Pipeline.text_queue w).
Proof.
  unfold App.take_text, Queue.get_nowait.
  by destruct (Queue.items (Pipeline.text_queue w)).
Qed.

(** The block of the RUNNING and FINISHED states. *)
Lemma running_or_finished_spec (w : World) m :
  stream_agrees m ->
  exists taken,
    (length taken <= 1)%nat
    /\ (app_state m <> RUNNING -> taken = [] /\ fst (running_or_finished w m) = w)
    /\ Queue.items (Pipeline.text_queue w)
       = taken ++ Queue.items (Pipeline.text_queue (fst (running_or_finished w m)))
    /\ total_chars (snd (running_or_finished w m)) = total_chars m + chars_of taken
    /\ word_color_chunks (snd (running_or_finished w m))
       = word_color_chunks m ++ chunks_of taken
    /\ stream_agrees (snd (running_or_finished w m))
    /\ running (snd (running_or_finished w m)) = running m
    /\ stream_active (snd (running_or_finished w m)) = stream_active m
    /\ screenshots (snd (running_or_finished w m)) = screenshots m
    /\ (app_state (snd (running_or_finished w m)) = app_state m
        \/ (app_state m = RUNNING
            /\ app_state (snd (running_or_finished w m)) = FINISHED)).
Proof.
  intros Hag. unfold App.running_or_finished.
  assert (exists w1 m1 taken,
             (match app_state m with RUNNING => take_text w m | _ => (w, m) end)
             = (w1, m1)
             /\ (length taken <= 1)%nat
             /\ (app_state m <> RUNNING -> taken = [] /\ w1 = w)
             /\ Queue.items (Pipeline.text_queue w)
                = taken ++ Queue.items (Pipeline.text_queue w1)
             /\ total_chars m1 = total_chars m + chars_of taken
             /\ word_color_chunks m1 = word_color_chunks m ++ chunks_of taken
             /\ same_control m m1) as (w1 & m1 & taken & -> & Hlen & Hnot & Hq & Ht & Hc & Hsame).
  { destruct (app_state m) eqn:E;
      try (exists w, m, []; rewrite app_nil_r; simpl;
           repeat split; (done || lia)).
    destruct (take_text_spec w m) as (taken & H1 & H2 & H3 & H4 & H5 & _).
    exists (fst (take_text w m)), (snd (take_text w m)), taken.
    split; [by destruct (take_text w m)|]. repeat split; try done; by apply H5. }
  destruct (Layout.draw_text_in_columns pixel_font _ _) as [s2 full].
  exists taken. split; [exact Hlen|]. split; [exact Hnot|]. cbn [fst snd].
  split; [exact Hq|].
  destruct (draw_controls_text full
              (if full && AppState_eqb (app_state (set_screen s2 m1)) RUNNING
               then set_stream_if_active Halted
                      (set_app_state FINISHED (set_screen s2 m1))
               else set_screen s2 m1)) as [-> ->].
  destruct (draw_controls_control full
              (if full && AppState_eqb (app_state (set_screen s2 m1)) RUNNING
               then set_stream_if_active Halted
                      (set_app_state FINISHED (set_screen s2 m1))
               else set_screen s2 m1)) as (Ha & Hr & Hs & Hac & Hsh).
  destruct Hsame as (Ha1 & Hr1 & Hs1 & Hac1 & Hsh1).
  assert (stream_agrees m1) as Hag1
    by (unfold stream_agrees in *; by rewrite Ha1, Hs1, Hac1).
  cbn [app_state set_screen] in *.
  destruct (full && AppState_eqb (app_state m1) RUNNING) eqn:Hf;
    cbn [total_chars word_color_chunks running stream_active screenshots app_state
         stream set_stream_if_active set_app_state set_screen] in *.
  - apply andb_true_iff in Hf as [_ Hf].
    assert (app_state m1 = RUNNING) as Hrun by (by destruct (app_state m1)).
    unfold stream_agrees in Hag1. rewrite Hrun in Hag1. destruct Hag1 as [Hst Hact].
    rewrite Hact in *.
    split; [exact Ht|]. split; [exact Hc|].
    split; [unfold stream_agrees; by rewrite Ha, Hs, Hac|].
    split; [by rewrite Hr|]. split; [by rewrite Hac, <- Hac1|].
    split; [by rewrite Hsh|]. right. split; [by rewrite <- Ha1|exact Ha].
  - split; [exact Ht|]. split; [exact Hc|].
    split; [unfold stream_agrees in *; by rewrite Ha, Hs, Hac|].
    split; [by rewrite Hr|]. split; [by rewrite Hac|].
    split; [by rewrite Hsh|]. left. by rewrite Ha.
Qed.

End Loop.
End FrameFacts.

Module FrameSpec.
Import App.
Section Loop.
Context {AudioChunk : Type}.
Variable NRCLex_affect_dict : string -> gmap string (list string).
Variable pixel_font : Font.t.
Local Abbreviation World := (Pipeline.World AudioChunk).
Local Abbreviation running_or_finished :=
  (@running_or_finished AudioChunk NRCLex_affect_dict pixel_font).
Local Abbreviation frame := (@frame AudioChunk NRCLex_affect_dict pixel_font).
Local Abbreviation main_loop := (@main_loop AudioChunk NRCLex_affect_dict pixel_font).
Local Abbreviation chunks_of := (chunks_of NRCLex_affect_dict).

(** The state with which an iteration reaches the block of the RUNNING
    and FINISHED states. *)
Lemma frame_split events opens (w : World) m :
  exists m3,
    frame events opens (w, m)
    = match app_state m3 with
      | RUNNING | FINISHED => running_or_finished w m3
      | _ => (w, m3)
      end
    /\ same_text m m3
    /\ screenshots m3 = screenshots (handle_events events m)
    /\ (stream_agrees m -> stream_agrees m3)
    /\ (stream_active m3 = true ->
        stream_active m = true \/ Pipeline.model_loaded w = true)
    /\ (app_state (handle_events events m) = FINISHED ->
        same_control (handle_events events m) m3)
    /\ (app_state (handle_events events m) = LOADING ->
        Pipeline.model_loaded w = false ->
        same_control (handle_events events m) m3).
Proof.
  unfold App.frame.
  pose proof (AppFacts.handle_events_data events m) as (Ht & Hc & _).
  pose proof (AppMore.handle_events_agrees events m) as Hag.
  set (m1 := handle_events events m) in *.
  assert (stream_active m1 = true -> stream_active m = true) as Hact.
  { subst m1. clear. revert m. induction events as [|e events IH]; intros m; [done|].
    unfold handle_events in *. simpl. intros H. apply IH in H.
    revert H. destruct m as [a ? ? ? act ? ? ?]. unfold handle_event.
    destruct e, a; simpl; repeat case_match; simpl; done. }
  eexists. split; [reflexivity|].
  destruct m1 as [a chunks total run active st scr shots] eqn:E1.
  cbn [app_state set_screen total_chars word_color_chunks running stream_active
       stream screen screenshots] in *.
  destruct a; cbn [set_screen app_state]; unfold loading; cbn [set_screen screen];
    try (destruct (Pipeline.model_loaded w) eqn:Hm; [destruct opens|]);
    unfold same_text, same_control, stream_agrees, set_running in *; simpl in *;
    repeat split; intros; try done;
    try (by right);
    try (left; by apply Hact);
    match goal with
    | Hm : _ /\ _ |- _ => by destruct (Hag Hm)
    | Hm : match app_state m with _ => _ end |- _ => by destruct (Hag Hm)
    end.
Qed.

(** One iteration: what it takes from the text queue is counted and
    appended, and the stream still agrees with the state. *)
Lemma frame_spec events opens (w : World) m :
  stream_agrees m ->
  exists taken,
    (length taken <= 1)%nat
    /\ Queue.items (Pipeline.text_queue w)
       = taken ++ Queue.items (Pipeline.text_queue (fst (frame events opens (w, m))))
    /\ total_chars (snd (frame events opens (w, m))) = total_chars m + chars_of taken
    /\ word_color_chunks (snd (frame events opens (w, m)))
       = word_color_chunks m ++ chunks_of taken
    /\ stream_agrees (snd (frame events opens (w, m)))
    /\ (stream_active (snd (frame events opens (w, m))) = true ->
        stream_active m = true \/ Pipeline.model_loaded w = true).
Proof.
  intros Hag.
  destruct (frame_split events opens w m) as (m3 & -> & [Ht Hc] & _ & Hag3 & Hact & _).
  specialize (Hag3 Hag).
  destruct (FrameFacts.running_or_finished_spec NRCLex_affect_dict pixel_font w m3 Hag3)
    as (taken & Hlen & _ & Hq & Htot & Hch & Hag' & _ & Hact' & _).
  destruct (app_state m3);
    try (exists []; simpl; rewrite app_nil_r; repeat split; (done || lia));
    exists taken; rewrite Htot, Hch, Ht, Hc, Hact'; done.
Qed.

Lemma chars_of_app a b : chars_of (a ++ b) = chars_of a + chars_of b.
Proof. induction a as [|t a IH]; simpl; [done|]. rewrite IH. lia. Qed.

Lemma chars_of_nonneg a : 0 <= chars_of a.
Proof.
  induction a as [|t a IH]; simpl; [done|].
  pose proof (AppFacts.len_nonneg t). lia.
Qed.

(** Over the whole loop. *)
Lemma main_loop_spec inputs : forall (w : World) m,
  stream_agrees m ->
  exists taken,
    (length taken <= length inputs)%nat
    /\ Queue.items (Pipeline.text_queue w)
       = taken ++ Queue.items (Pipeline.text_queue (fst (main_loop inputs (w, m))))
    /\ total_chars (snd (main_loop inputs (w, m))) = total_chars m + chars_of taken
    /\ word_color_chunks (snd (main_loop inputs (w, m)))
       = word_color_chunks m ++ chunks_of taken
    /\ stream_agrees (snd (main_loop inputs (w, m))).
Proof.
  induction inputs as [|[events opens] inputs IH]; intros w m Hag.
  - exists []. simpl. rewrite app_nil_r. repeat split; (done || lia).
  - cbn [App.main_loop snd]. destruct (running m).
    + destruct (frame_spec events opens w m Hag)
        as (taken1 & Hlen1 & Hq1 & Ht1 & Hc1 & Hag1 & _).
      destruct (frame events opens (w, m)) as [w1 m1]. cbn [fst snd] in *.
      destruct (IH w1 m1 Hag1) as (taken2 & Hlen2 & Hq2 & Ht2 & Hc2 & Hag2).
      exists (taken1 ++ taken2). rewrite length_app.
      split; [cbn [length]; lia|]. split; [by rewrite Hq1, Hq2, app_assoc|].
      split; [|split; [|exact Hag2]].
      * rewrite Ht2, Ht1, chars_of_app. lia.
      * rewrite Hc2, Hc1. unfold App.chunks_of. by rewrite omap_app, app_assoc.
    + exists []. simpl. rewrite app_nil_r. repeat split; (done || lia).
Qed.

End Loop.
End FrameSpec.

(** ** More on the threads together *)

Module SystemMore.
Import System.
Section Facts.
Context {AudioChunk : Type}.
Variable model_loads : bool.
Variable transcribe : AudioChunk -> option (list string).
Variable NRCLex_affect_dict : string -> gmap string (list string).
Variable pixel_font : Font.t.
Local Abbreviation Sys := (@Sys AudioChunk).
Local Abbreviation step :=
  (@step AudioChunk model_loads transcribe NRCLex_affect_dict pixel_font).
Local Abbreviation reachable :=
  (@reachable AudioChunk model_loads transcribe NRCLex_affect_dict pixel_font).
Local Abbreviation worker_step := (Pipeline.worker_step model_loads transcribe).

Lemma loading_or_not (ws : Pipeline.WorkerState) :
  ws = Pipeline.ModelLoading \/ ws <> Pipeline.ModelLoading.
Proof. destruct ws; (by left) || (by right). Qed.

(** The worker and the model-ready signal. *)
Lemma worker_step_signal (w : Pipeline.World AudioChunk) :
  (Pipeline.worker w = Pipeline.ModelLoading ->
   Pipeline.model_loaded (worker_step w) = true
   /\ Pipeline.worker (worker_step w)
      = (if model_loads then Pipeline.Ready else Pipeline.Stopped)
   /\ Pipeline.audio_queue (worker_step w) = Pipeline.audio_queue w
   /\ Pipeline.text_queue (worker_step w) = Pipeline.text_queue w)
  /\ (Pipeline.worker w <> Pipeline.ModelLoading ->
      Pipeline.model_loaded (worker_step w) = Pipeline.model_loaded w
      /\ Pipeline.worker (worker_step w) <> Pipeline.ModelLoading).
Proof.
  unfold Pipeline.worker_step, Pipeline.worker_put, Pipeline.worker_receive.
  destruct w as [aq tq ml ws]. simpl.
  split; intros H.
  - subst ws. by destruct model_loads.
  - destruct ws; try done; simpl;
      repeat (case_match; simpl; try done).
Qed.

(** The worker takes from the front of the audio queue and puts at the
    end of the text queue. *)
Lemma worker_step_queues (w : Pipeline.World AudioChunk) :
  Queue.items (Pipeline.audio_queue (worker_step w))
    `suffix_of` Queue.items (Pipeline.audio_queue w)
  /\ Queue.items (Pipeline.text_queue w)
       `prefix_of` Queue.items (Pipeline.text_queue (worker_step w)).
Proof.
  unfold Pipeline.worker_step, Pipeline.worker_put, Pipeline.worker_receive,
    Queue.get, Queue.put.
  destruct w as [[ak aitems] [tk titems] ml ws]. simpl.
  destruct ws; simpl; try done;
    repeat (case_match; simpl; simplify_eq; try done);
    split; try done; try (by apply suffix_cons_r); by apply prefix_app_r.
Qed.

Lemma invariant_initial : invariant (@System.initial AudioChunk).
Proof. unfold invariant. simpl. repeat split; done. Qed.

Lemma invariant_step s s' : invariant s -> step s s' -> invariant s'.
Proof.
  intros (I1 & I2 & I3 & I4) Hstep. unfold invariant.
  destruct Hstep as [s|s indata w' _ Hcb|s events opens Hex _|s wm Hex _ Hc];
    cbn [world main exited].
  - destruct (worker_step_signal (world s)) as [Hload Hother].
    destruct (loading_or_not (Pipeline.worker (world s))) as [E|E].
    + destruct (Hload E) as (Hm & Hw & _). rewrite Hm, Hw.
      split; [exact I1|]. split; [exact I2|]. split; [done|].
      split; [done|by destruct model_loads].
    + destruct (Hother E) as (Hm & Hw). rewrite Hm.
      split; [exact I1|]. split; [exact I2|]. split; [exact I3|].
      split; intros H; [by apply I4 in H|done].
  - unfold Pipeline.audio_callback in Hcb.
    destruct (Queue.put _ _); [|done]. injection Hcb as <-. done.
  - destruct (AppFacts.frame_world NRCLex_affect_dict pixel_font events opens
                (world s) (main s)) as (Hw & _ & Hm & _).
    destruct (FrameSpec.frame_spec NRCLex_affect_dict pixel_font events opens
                (world s) (main s) (I1 Hex)) as (_ & _ & _ & _ & _ & Hag & Hact).
    rewrite Hw, Hm. split; [intros _; exact Hag|]. split; [done|].
    split; [|exact I4].
    intros H. destruct (Hact H) as [H'|H']; [by apply I3|exact H'].
  - unfold App.cleanup in Hc. destruct (Queue.put _ _); [|done].
    injection Hc as <-. cbn [fst snd].
    split; [done|]. split; [|done]. intros _.
    unfold App.set_stream_if_active. simpl.
    specialize (I1 Hex). unfold App.stream_agrees in I1.
    destruct (App.stream_active (main s)) eqn:Hact; [done|].
    destruct (App.app_state (main s)); destruct I1 as [-> ?]; done.
Qed.

Lemma invariant_reachable s : reachable s -> invariant s.
Proof.
  revert s. apply rtc_ind_r.
  - apply invariant_initial.
  - intros y z _ Hstep IH. by eapply invariant_step.
Qed.

(** The signal, once set, stays set. *)
Lemma model_loaded_stays s s' :
  rtc step s s' ->
  Pipeline.model_loaded (world s) = true -> Pipeline.model_loaded (world s') = true.
Proof.
  intros H. induction H as [s|s s1 s2 H1 _ IH]; [done|].
  intros Hm. apply IH. clear IH.
  destruct H1 as [s|s indata w' _ Hcb|s events opens _ _|s wm _ _ Hc];
    cbn [world].
  - destruct (worker_step_signal (world s)) as [Hload Hother].
    destruct (loading_or_not (Pipeline.worker (world s))) as [E|E].
    + by apply Hload.
    + destruct (Hother E) as [-> _]. done.
  - unfold Pipeline.audio_callback in Hcb.
    destruct (Queue.put _ _); [|done]. by injection Hcb as <-.
  - destruct (AppFacts.frame_world NRCLex_affect_dict pixel_font events opens
                (world s) (main s)) as (_ & _ & -> & _). done.
  - unfold App.cleanup in Hc. destruct (Queue.put _ _); [|done].
    by injection Hc as <-.
Qed.

(** After the cleanup only the worker moves. *)
Lemma step_after_exit s s' :
  invariant s -> exited s = true -> step s s' ->
  s' = mkSys (worker_step (world s)) (main s) true.
Proof.
  intros (_ & I2 & _) Hex Hstep.
  destruct Hstep as [s|s indata w' Hst _|s events opens Hex' _|s wm Hex' _ _].
  - by rewrite Hex.
  - by apply I2 in Hex.
  - congruence.
  - congruence.
Qed.

Lemma steps_after_exit s s' :
  invariant s -> exited s = true -> rtc step s s' ->
  exited s' = true /\ main s' = main s
  /\ Queue.items (Pipeline.audio_queue (world s'))
       `suffix_of` Queue.items (Pipeline.audio_queue (world s)).
Proof.
  intros Hinv Hex Hsteps. induction Hsteps as [s|s s1 s2 H1 _ IH]; [done|].
  pose proof (step_after_exit _ _ Hinv Hex H1) as ->.
  destruct IH as (He & Hm & Hq).
  - by apply (invariant_step s); [|exact H1].
  - done.
  - split; [exact He|]. split; [exact Hm|].
    etrans; [exact Hq|]. apply worker_step_queues.
Qed.

End Facts.
End SystemMore.

Module LoadingFacts.
Import App.

Lemma handle_event_in_loading m e :
  app_state m = LOADING ->
  handle_event m e
  = set_running (running m && match e with QUIT => false | _ => true end) m.
Proof.
  destruct m as [a chunks total run active st scr shots]. simpl. intros ->.
  unfold handle_event, set_running.
  destruct e; simpl; by rewrite ?andb_true_r, ?andb_false_r.
Qed.

Lemma handle_events_in_loading events : forall m,
  app_state m = LOADING ->
  handle_events events m
  = set_running (running m && forallb (fun e => match e with QUIT => false | _ => true end) events) m.
Proof.
  induction events as [|e events IH]; intros m E.
  - destruct m. unfold set_running. simpl. by rewrite andb_true_r.
  - unfold handle_events in *. simpl. rewrite handle_event_in_loading by done.
    rewrite IH by done. destruct m. unfold set_running. simpl.
    by rewrite andb_assoc.
Qed.

End LoadingFacts.

Module FailedLoad.
Import System.
Section Facts.
Context {AudioChunk : Type}.
Variable transcribe : AudioChunk -> option (list string).
Variable NRCLex_affect_dict : string -> gmap string (list string).
Variable pixel_font : Font.t.
Local Abbreviation step :=
  (@step AudioChunk false transcribe NRCLex_affect_dict pixel_font).

Lemma silent_step s s' : invariant s -> silent s -> step s s' -> silent s'.
Proof.
  intros (I1 & _) (Hw & Hq & Hc & Ht) Hstep. unfold silent.
  destruct Hstep as [s|s indata w' _ Hcb|s events opens Hex _|s wm _ _ Hcl];
    cbn [world main].
  - destruct Hw as [Hw|Hw].
    + destruct (SystemMore.worker_step_signal false transcribe (world s))
        as [Hload _].
      destruct (Hload Hw) as (_ & -> & _ & ->). split; [by right|done].
    + rewrite PipelineFacts.step_stopped by exact Hw. split; [by right|done].
  - unfold Pipeline.audio_callback in Hcb.
    destruct (Queue.put _ _); [|done]. injection Hcb as <-. done.
  - destruct (AppFacts.frame_world NRCLex_affect_dict pixel_font events opens
                (world s) (main s)) as (-> & _ & _ & _).
    destruct (FrameSpec.frame_spec NRCLex_affect_dict pixel_font events opens
                (world s) (main s) (I1 Hex)) as (taken & _ & Hq' & Ht' & Hc' & _).
    rewrite Hq in Hq'. symmetry in Hq'. apply app_eq_nil in Hq' as [-> Hq'].
    rewrite Ht', Hc', Hc, Ht, Hq'. done.
  - unfold App.cleanup in Hcl. destruct (Queue.put _ _); [|done].
    injection Hcl as <-. done.
Qed.

Lemma silent_reachable s :
  reachable false transcribe NRCLex_affect_dict pixel_font s -> silent s.
Proof.
  intros H. cut (invariant s /\ silent s); [by intros []|].
  revert s H. apply rtc_ind_r.
  - split; [apply SystemMore.invariant_initial|].
    unfold silent. simpl. split; [by left|done].
  - intros y z _ Hstep [Hi Hs]. split.
    + by eapply SystemMore.invariant_step.
    + by eapply silent_step.
Qed.

End Facts.
End FailedLoad.

(** ** Further properties: the worker and the signal *)

(** X1: the worker sets the model-ready signal with its first move,
    whether the model loads or not, and goes on to Ready only if it
    loaded. In every state of the program the signal is unset exactly
    while the worker is loading, and no thread ever clears it. *)
Theorem X1_model_ready_signal (AudioChunk : Type) (model_loads : bool)
    (transcribe : AudioChunk -> option (list string))
    (NRCLex_affect_dict : string -> gmap string (list string))
    (pixel_font : Font.t) (s : System.Sys) :
  System.reachable model_loads transcribe NRCLex_affect_dict pixel_font s ->
  Pipeline.worker_step model_loads transcribe Pipeline.initial
  = Pipeline.mkWorld Queue.new Queue.new true
      (if model_loads then Pipeline.Ready else Pipeline.Stopped)
  /\ (Pipeline.model_loaded (System.world s) = false
      <-> Pipeline.worker (System.world s) = Pipeline.ModelLoading)
  /\ (forall s',
        rtc (System.step model_loads transcribe NRCLex_affect_dict pixel_font) s s' ->
        Pipeline.model_loaded (System.world s) = true ->
        Pipeline.model_loaded (System.world s') = true).
Proof.
  intros Hreach. split; [by destruct model_loads|]. split.
  - by apply (SystemMore.invariant_reachable _ _ _ _ s Hreach).
  - intros s'. apply SystemMore.model_loaded_stays.
Qed.

Lemma X1_model_ready_signal_witness :
  System.reachable true Scenario.toy_transcribe Scenario.happy_analysis
                   Scenario.mono Scenario.model_ready
  /\ (Pipeline.model_loaded (System.world Scenario.model_ready) = false
      <-> Pipeline.worker (System.world Scenario.model_ready) = Pipeline.ModelLoading)
  /\ Pipeline.model_loaded (System.world Scenario.recording_started) = true.
Proof.
  assert (System.reachable true Scenario.toy_transcribe Scenario.happy_analysis
            Scenario.mono Scenario.model_ready) as Hreach
    by (apply rtc_once; apply System.step_worker).
  destruct (X1_model_ready_signal Scenario.Chunk true Scenario.toy_transcribe
              Scenario.happy_analysis Scenario.mono Scenario.model_ready Hreach)
    as (_ & Hiff & Hstay).
  split; [exact Hreach|]. split; [exact Hiff|].
  apply (Hstay Scenario.recording_started); [|reflexivity].
  apply rtc_once.
  exact (System.step_frame true Scenario.toy_transcribe Scenario.happy_analysis
           Scenario.mono Scenario.model_ready [App.KEYDOWN] true eq_refl eq_refl).
Defined.

(** X2: between the iterations of the main loop (an iteration is one
    step of the main thread; inside an iteration the state is assigned and
    the stream started or stopped by consecutive statements, which are not
    states of their own here), whenever the audio stream is started the
    cleanup has not run yet, the application is RUNNING, [stream_active] is
    set and so is the model-ready signal; and the cleanup, when it runs
    from such a state, stops the stream. The loop may already have been
    told to quit: [running] is not constrained. *)
Theorem X2_stream_started_between_iterations (AudioChunk : Type)
    (model_loads : bool)
    (transcribe : AudioChunk -> option (list string))
    (NRCLex_affect_dict : string -> gmap string (list string))
    (pixel_font : Font.t) (s : System.Sys) :
  System.reachable model_loads transcribe NRCLex_affect_dict pixel_font s ->
  App.stream (System.main s) = App.Started ->
  System.exited s = false
  /\ App.app_state (System.main s) = App.RUNNING
  /\ App.stream_active (System.main s) = true
  /\ Pipeline.model_loaded (System.world s) = true
  /\ (forall wm,
        App.cleanup (System.world s, System.main s) = Some wm ->
        App.stream (snd wm) = App.Halted).
Proof.
  intros Hreach Hst.
  destruct (SystemMore.invariant_reachable _ _ _ _ s Hreach) as (I1 & I2 & I3 & _).
  assert (System.exited s = false) as Hex.
  { destruct (System.exited s); [|done]. by destruct (I2 eq_refl). }
  specialize (I1 Hex). unfold App.stream_agrees in I1.
  split; [exact Hex|].
  destruct (App.app_state (System.main s)); destruct I1 as [Hs Ha];
    try congruence.
  split; [reflexivity|]. split; [exact Ha|]. split; [by apply I3|].
  intros wm Hc. unfold App.cleanup in Hc.
  destruct (Queue.put _ _); [|done]. injection Hc as <-.
  unfold App.set_stream_if_active. simpl. by rewrite Ha.
Qed.

Lemma X2_stream_started_between_iterations_witness :
  let quitting :=
    let wm := App.frame Scenario.happy_analysis Scenario.mono [App.QUIT] true
                (System.world Scenario.recording_started,
                 System.main Scenario.recording_started) in
    System.mkSys (fst wm) (snd wm) false in
  (System.reachable true Scenario.toy_transcribe Scenario.happy_analysis
                    Scenario.mono quitting
   /\ App.stream (System.main quitting) = App.Started)
  /\ App.running (System.main quitting) = false
  /\ System.exited quitting = false
  /\ App.app_state (System.main quitting) = App.RUNNING
  /\ Pipeline.model_loaded (System.world quitting) = true.
Proof.
  intros quitting.
  assert (System.reachable true Scenario.toy_transcribe Scenario.happy_analysis
            Scenario.mono quitting) as Hreach.
  { eapply rtc_l; [apply System.step_worker|].
    eapply rtc_l.
    - exact (System.step_frame true Scenario.toy_transcribe Scenario.happy_analysis
               Scenario.mono Scenario.model_ready [App.KEYDOWN] true eq_refl eq_refl).
    - apply rtc_once.
      exact (System.step_frame true Scenario.toy_transcribe Scenario.happy_analysis
               Scenario.mono Scenario.recording_started [App.QUIT] true
               eq_refl eq_refl). }
  assert (App.stream (System.main quitting) = App.Started) as Hst
    by (vm_compute; reflexivity).
  destruct (X2_stream_started_between_iterations Scenario.Chunk true
              Scenario.toy_transcribe Scenario.happy_analysis Scenario.mono
              quitting Hreach Hst) as (Hex & Hrun & _ & Hml & _).
  split; [split; [exact Hreach|exact Hst]|].
  split; [vm_compute; reflexivity|].
  split; [exact Hex|]. split; [exact Hrun|exact Hml].
Defined.

(** X3: the cleanup puts the sentinel at the end of the audio queue, and
    from any state of the program after the cleanup on, the locals of
    [main] no longer change and the audio queue only loses items at its
    front: no chunk is ever put behind the sentinel. *)
Theorem X3_no_chunk_after_sentinel (AudioChunk : Type) (model_loads : bool)
    (transcribe : AudioChunk -> option (list string))
    (NRCLex_affect_dict : string -> gmap string (list string))
    (pixel_font : Font.t) (s s' : System.Sys) :
  System.reachable model_loads transcribe NRCLex_affect_dict pixel_font s ->
  System.exited s = true ->
  rtc (System.step model_loads transcribe NRCLex_affect_dict pixel_font) s s' ->
  (forall items tq ml ws m,
      App.cleanup (Pipeline.mkWorld (Queue.mk 0 items) tq ml ws
                     : Pipeline.World AudioChunk, m)
      = Some (Pipeline.mkWorld (Queue.mk 0 (items ++ [None])) tq ml ws,
              App.set_stream_if_active App.Halted m))
  /\ System.exited s' = true
  /\ System.main s' = System.main s
  /\ Queue.items (Pipeline.audio_queue (System.world s'))
       `suffix_of` Queue.items (Pipeline.audio_queue (System.world s)).
Proof.
  intros Hreach Hex Hsteps. split; [reflexivity|].
  eapply SystemMore.steps_after_exit; [|exact Hex|exact Hsteps].
  by eapply SystemMore.invariant_reachable.
Qed.

Lemma X3_no_chunk_after_sentinel_witness :
  let step := System.step true Scenario.toy_transcribe Scenario.happy_analysis
                          Scenario.mono in
  let later :=
    System.mkSys (Pipeline.worker_step true Scenario.toy_transcribe
                    (System.world Scenario.after_cleanup))
                 (System.main Scenario.after_cleanup) true in
  (System.reachable true Scenario.toy_transcribe Scenario.happy_analysis
                    Scenario.mono Scenario.after_cleanup
   /\ System.exited Scenario.after_cleanup = true
   /\ rtc step Scenario.after_cleanup later)
  /\ Queue.items (Pipeline.audio_queue (System.world Scenario.after_cleanup)) = [None]
  /\ System.main later = System.main Scenario.after_cleanup
  /\ Queue.items (Pipeline.audio_queue (System.world later))
       `suffix_of` [None].
Proof.
  intros step later.
  assert (System.reachable true Scenario.toy_transcribe Scenario.happy_analysis
            Scenario.mono Scenario.after_cleanup) as Hreach.
  { eapply rtc_l.
    - exact (System.step_frame true Scenario.toy_transcribe Scenario.happy_analysis
               Scenario.mono System.initial [App.QUIT] true eq_refl eq_refl).
    - apply rtc_once.
      change Scenario.after_cleanup
        with (System.mkSys
                (fst (System.world Scenario.after_cleanup,
                      System.main Scenario.after_cleanup))
                (snd (System.world Scenario.after_cleanup,
                      System.main Scenario.after_cleanup)) true).
      apply System.step_cleanup; vm_compute; reflexivity. }
  assert (rtc step Scenario.after_cleanup later) as Hsteps
    by (apply rtc_once; apply (System.step_worker _ _ _ _ Scenario.after_cleanup)).
  destruct (X3_no_chunk_after_sentinel Scenario.Chunk true Scenario.toy_transcribe
              Scenario.happy_analysis Scenario.mono Scenario.after_cleanup later
              Hreach eq_refl Hsteps) as (_ & _ & Hmain & Hsuffix).
  split; [split; [exact Hreach|split; [reflexivity|exact Hsteps]]|].
  split; [reflexivity|]. split; [exact Hmain|exact Hsuffix].
Defined.

(** X4: with the sentinel anywhere on the audio queue, a Ready worker has
    stopped after as many moves as the queue has items, whatever the
    transcription function returns or raises on the chunks before it, and
    it stays stopped however many more moves it is given. *)
Theorem X4_worker_stops_at_sentinel (AudioChunk : Type) (model_loads : bool)
    (transcribe : AudioChunk -> option (list string))
    (items : list (option AudioChunk)) (k : Z) (old : list string) (ml : bool)
    (extra : nat) :
  In None items ->
  Pipeline.worker
    (Pipeline.worker_run model_loads transcribe (length items + extra)
       (Pipeline.mkWorld (Queue.mk k items) (Queue.mk 0 old) ml Pipeline.Ready))
  = Pipeline.Stopped.
Proof.
  intros Hin. rewrite WorkerFacts.run_add.
  rewrite PipelineFacts.run_stopped; by apply WorkerFacts.run_reaches_sentinel.
Qed.

Lemma X4_worker_stops_at_sentinel_witness :
  In None [Some [1]; Some [1; 2; 3]; None; Some [2]]
  /\ Pipeline.worker
       (Pipeline.worker_run true Scenario.toy_transcribe (4 + 3)
          (Pipeline.mkWorld (Queue.mk 0 [Some [1]; Some [1; 2; 3]; None; Some [2]])
                            (Queue.mk 0 []) true Pipeline.Ready))
     = Pipeline.Stopped.
Proof.
  assert (In (@None Scenario.Chunk) [Some [1]; Some [1; 2; 3]; None; Some [2]])
    as Hin by (right; right; left; reflexivity).
  split; [exact Hin|].
  exact (X4_worker_stops_at_sentinel Scenario.Chunk true Scenario.toy_transcribe
           _ 0 [] true 3 Hin).
Defined.

(** X5: when the model fails to load, in every state of the program the
    worker is loading or stopped, the text queue is empty, the transcript
    is empty and no character has been counted; the application can still
    go to RUNNING, since the ready signal is set all the same. *)
Theorem X5_failed_load_is_silent (AudioChunk : Type)
    (transcribe : AudioChunk -> option (list string))
    (NRCLex_affect_dict : string -> gmap string (list string))
    (pixel_font : Font.t) (s : System.Sys) :
  System.reachable false transcribe NRCLex_affect_dict pixel_font s ->
  (Pipeline.worker (System.world s) = Pipeline.ModelLoading
   \/ Pipeline.worker (System.world s) = Pipeline.Stopped)
  /\ Queue.items (Pipeline.text_queue (System.world s)) = []
  /\ App.word_color_chunks (System.main s) = []
  /\ App.total_chars (System.main s) = 0.
Proof. apply FailedLoad.silent_reachable. Qed.

Lemma X5_failed_load_is_silent_witness :
  let s :=
    let wm := App.frame Scenario.happy_analysis Scenario.mono [App.KEYDOWN] true
                (System.world Scenario.load_failed, System.main Scenario.load_failed) in
    System.mkSys (fst wm) (snd wm) false in
  System.reachable false Scenario.toy_transcribe Scenario.happy_analysis
                   Scenario.mono s
  /\ App.app_state (System.main s) = App.RUNNING
  /\ Pipeline.worker (System.world s) = Pipeline.Stopped
  /\ App.word_color_chunks (System.main s) = []
  /\ App.total_chars (System.main s) = 0.
Proof.
  intros s.
  assert (System.reachable false Scenario.toy_transcribe Scenario.happy_analysis
            Scenario.mono s) as Hreach.
  { eapply rtc_l; [apply System.step_worker|]. apply rtc_once.
    exact (System.step_frame false Scenario.toy_transcribe Scenario.happy_analysis
             Scenario.mono Scenario.load_failed [App.KEYDOWN] true eq_refl eq_refl). }
  destruct (X5_failed_load_is_silent Scenario.Chunk Scenario.toy_transcribe
              Scenario.happy_analysis Scenario.mono s Hreach)
    as (_ & _ & Hc & Ht).
  split; [exact Hreach|]. split; [vm_compute; reflexivity|].
  split; [vm_compute; reflexivity|]. split; [exact Hc|exact Ht].
Defined.

(** ** Further properties: the layout engine *)

(** X6: once a transcript fills the screen, chunks appended to it change
    nothing: the call draws the same words at the same places and returns
    the overflow flag again. *)
Theorem X6_overflow_is_permanent (font : Font.t) (s : Surface.t)
    (chunks more : list Layout.TextChunk) :
  snd (Layout.draw_text_in_columns font s chunks) = true ->
  Layout.draw_text_in_columns font s (chunks ++ more)
  = Layout.draw_text_in_columns font s chunks.
Proof.
  unfold Layout.draw_text_in_columns. simpl. intros H.
  by rewrite LayoutMore.draw_chunks_full.
Qed.

Lemma X6_overflow_is_permanent_witness :
  snd (Layout.draw_text_in_columns Scenario.mono Scenario.window
         Scenario.full_transcript) = true
  /\ Layout.draw_text_in_columns Scenario.mono Scenario.window
       (Scenario.full_transcript ++ [Scenario.line "again"])
     = Layout.draw_text_in_columns Scenario.mono Scenario.window
         Scenario.full_transcript.
Proof.
  assert (snd (Layout.draw_text_in_columns Scenario.mono Scenario.window
                 Scenario.full_transcript) = true) as H
    by (vm_compute; reflexivity).
  split; [exact H|].
  exact (X6_overflow_is_permanent Scenario.mono Scenario.window
           Scenario.full_transcript [Scenario.line "again"] H).
Defined.

(** X7: the words are drawn in the order of the transcript, each with its
    own colour, none twice and none skipped: the words drawn by a call are
    a prefix of the words of the transcript, and all of them when the call
    does not return the overflow flag. A call leaves what was on the
    surface and only adds to it. *)
Theorem X7_words_drawn_in_order (font : Font.t) (s : Surface.t)
    (chunks : list Layout.TextChunk) :
  Surface.ops (fst (Layout.draw_text_in_columns font s chunks))
  = Surface.ops s ++ Layout.placements font s chunks
  /\ if snd (Layout.draw_text_in_columns font s chunks)
     then exists not_drawn,
         concat chunks
         = Layout.tokens_of (Layout.placements font s chunks) ++ not_drawn
     else concat chunks = Layout.tokens_of (Layout.placements font s chunks).
Proof.
  destruct (LayoutMore.draw_chunks_ops font chunks (Layout.start s))
    as (added & rest & Ho & Hc & Hr).
  unfold Layout.placements, Layout.draw_text_in_columns. cbn [fst snd].
  cbn [Layout.surface Layout.start] in Ho. rewrite Ho, drop_app_length.
  split; [reflexivity|].
  destruct (Layout.screen_full _).
  - by exists rest.
  - by rewrite Hc, (Hr eq_refl), app_nil_r.
Qed.

(** X8: with a font whose words all have the height of a line, widths and
    space width not negative, and a surface on which one line fits between
    the margins, every word is drawn right of the left margin, below the
    top margin and with its bottom above the bottom margin. *)
Theorem X8_words_inside_margins (font : Font.t) (h : Z) (s : Surface.t)
    (chunks : list Layout.TextChunk) :
  (forall word, snd (Font.size font word) = h) ->
  Font.get_height font = h ->
  0 <= h ->
  (forall word, 0 <= fst (Font.size font word)) ->
  0 <= Layout.space_width font ->
  0 <= Surface.get_width s ->
  Layout.margin + h <= Surface.get_height s - Layout.margin ->
  Forall (Layout.within_margins s h) (Layout.placements font s chunks).
Proof.
  intros H1 H2 H3 H4 H5 HW HH.
  destruct (LayoutBounds.draw_chunks_inside font h H1 H2 H3 H4 H5 chunks
              (Layout.start s)) as (added & Ho & Hall).
  - unfold Layout.cursor_inside.
    cbn [Layout.start Layout.col_y Layout.current_line_x Layout.current_col_x
         Layout.surface].
    unfold Layout.left_col_x, Layout.margin in *. lia.
  - exact HW.
  - unfold Layout.placements, Layout.draw_text_in_columns. cbn [fst].
    cbn [Layout.surface Layout.start] in Ho, Hall.
    by rewrite Ho, drop_app_length.
Qed.

Lemma X8_words_inside_margins_witness :
  ((forall word, snd (Font.size Scenario.mono word) = 30)
   /\ Font.get_height Scenario.mono = 30
   /\ 0 <= 30
   /\ (forall word, 0 <= fst (Font.size Scenario.mono word))
   /\ 0 <= Layout.space_width Scenario.mono
   /\ 0 <= Surface.get_width Scenario.window
   /\ Layout.margin + 30 <= Surface.get_height Scenario.window - Layout.margin)
  /\ Forall (Layout.within_margins Scenario.window 30)
       (Layout.placements Scenario.mono Scenario.window
          (Scenario.to_last_line ++ [Scenario.line Scenario.long_word])).
Proof.
  assert (forall word, snd (Font.size Scenario.mono word) = 30) as H1
    by (intros; reflexivity).
  assert (forall word, 0 <= fst (Font.size Scenario.mono word)) as H4
    by (intros; simpl; unfold PyStr.len; lia).
  assert (0 <= Layout.space_width Scenario.mono) as H5 by (vm_compute; discriminate).
  assert (0 <= Surface.get_width Scenario.window) as H6 by (vm_compute; discriminate).
  assert (Layout.margin + 30
          <= Surface.get_height Scenario.window - Layout.margin) as H7
    by (vm_compute; discriminate).
  split.
  - split; [exact H1|]. split; [reflexivity|]. split; [lia|].
    split; [exact H4|]. split; [exact H5|]. split; [exact H6|exact H7].
  - exact (X8_words_inside_margins Scenario.mono 30 Scenario.window _
             H1 eq_refl ltac:(lia) H4 H5 H6 H7).
Defined.

(** ** Further properties: the main loop *)

(** X9: over any run of the main loop from its start, the fragments taken
    from the text queue are its first items, at most one an iteration; the
    transcript is, in the same order, the chunk of every taken fragment
    that has a word, and [total_chars] is the sum of the lengths of the
    taken fragments. Nothing else changes the transcript or the count. *)
Theorem X9_transcript_accounting (AudioChunk : Type)
    (NRCLex_affect_dict : string -> gmap string (list string))
    (pixel_font : Font.t) (inputs : list (list App.Event * bool))
    (w : Pipeline.World AudioChunk) :
  let after := App.main_loop NRCLex_affect_dict pixel_font inputs (w, App.initial) in
  exists taken,
    (length taken <= length inputs)%nat
    /\ Queue.items (Pipeline.text_queue w)
       = taken ++ Queue.items (Pipeline.text_queue (fst after))
    /\ App.total_chars (snd after) = App.chars_of taken
    /\ App.word_color_chunks (snd after) = App.chunks_of NRCLex_affect_dict taken.
Proof.
  intros after.
  destruct (FrameSpec.main_loop_spec NRCLex_affect_dict pixel_font inputs w App.initial)
    as (taken & Hlen & Hq & Ht & Hc & _).
  - unfold App.stream_agrees. simpl. done.
  - exists taken. subst after. rewrite Ht, Hc. simpl. done.
Qed.

(** X10: a fragment that the worker puts on the text queue is never empty
    and has a word: taken by the main loop it adds exactly one chunk, which
    is not empty, and a positive number of characters. *)
Theorem X10_fragment_becomes_one_chunk (AudioChunk : Type) (model_loads : bool)
    (transcribe : AudioChunk -> option (list string))
    (NRCLex_affect_dict : string -> gmap string (list string))
    (c : AudioChunk) (rest : list (option AudioChunk)) (ml : bool)
    (segments : list string) (m : App.Main) :
  transcribe c = Some segments ->
  PyStr.truthy (Pipeline.transcription_of segments) = true ->
  let text := Pipeline.transcription_of segments in
  let w1 := Pipeline.worker_step model_loads transcribe
              (Pipeline.mkWorld (Queue.mk 0 (Some c :: rest)) Queue.new ml
                                Pipeline.Ready) in
  let after := App.take_text NRCLex_affect_dict w1 m in
  Queue.items (Pipeline.text_queue w1) = [text]
  /\ Queue.items (Pipeline.text_queue (fst after)) = []
  /\ 0 < PyStr.len text
  /\ App.total_chars (snd after) = App.total_chars m + PyStr.len text
  /\ Emotion.new_chunk (NRCLex_affect_dict text) text <> []
  /\ App.word_color_chunks (snd after)
     = App.word_color_chunks m ++ [Emotion.new_chunk (NRCLex_affect_dict text) text].
Proof.
  intros Hc Htruthy text w1 after.
  assert (w1 = Pipeline.mkWorld (Queue.mk 0 rest) (Queue.mk 0 [text]) ml
                                Pipeline.Ready) as Hw1.
  { subst w1. unfold Queue.new.
    rewrite (PipelineFacts.step_chunk _ _ _ _ _ _ _ Hc). by rewrite Htruthy. }
  assert (Emotion.new_chunk (NRCLex_affect_dict text) text <> []) as Hne.
  { unfold Emotion.new_chunk. intros H. apply map_eq_nil in H.
    by apply (PyStrFacts.split_strip (PyStr.join segments)). }
  subst after. rewrite Hw1. unfold App.take_text. simpl.
  split; [done|]. split; [done|].
  split; [by apply PyStrFacts.len_truthy|]. split; [done|]. split; [exact Hne|].
  by destruct (Emotion.new_chunk (NRCLex_affect_dict text) text).
Qed.

Lemma X10_fragment_becomes_one_chunk_witness :
  let w1 := Pipeline.worker_step true Scenario.toy_transcribe
              (Pipeline.mkWorld (Queue.mk 0 [Some [7]]) Queue.new true
                                Pipeline.Ready) in
  (Scenario.toy_transcribe [7] = Some [" I am"; " happy "]%string
   /\ PyStr.truthy (Pipeline.transcription_of [" I am"; " happy "]%string) = true)
  /\ Queue.items (Pipeline.text_queue w1) = ["I am happy"%string]
  /\ App.word_color_chunks
       (snd (App.take_text Scenario.happy_analysis w1 App.initial))
     = [Emotion.new_chunk Scenario.happy_lexicon "I am happy"].
Proof.
  intros w1.
  destruct (X10_fragment_becomes_one_chunk Scenario.Chunk true
              Scenario.toy_transcribe Scenario.happy_analysis [7] [] true
              [" I am"; " happy "]%string App.initial eq_refl eq_refl)
    as (H1 & _ & _ & _ & _ & H2).
  split; [split; reflexivity|]. split; [exact H1|exact H2].
Defined.

(** X11: an event changes the list of screenshots only when it is a click
    inside the save button in the FINISHED state; it then appends the
    screen as it is and leaves state and stream alone. In particular the
    click that pauses the recording, on the same rectangle, saves
    nothing. *)
Theorem X11_screenshot_only_when_finished (m : App.Main) (e : App.Event) :
  App.screenshots (App.handle_event m e) = App.screenshots m
  \/ (App.app_state m = App.FINISHED
      /\ App.app_state (App.handle_event m e) = App.FINISHED
      /\ App.stream (App.handle_event m e) = App.stream m
      /\ App.screenshots (App.handle_event m e) = App.screenshots m ++ [App.screen m]
      /\ exists pos, e = App.MOUSEBUTTONDOWN pos
                     /\ Rect.collidepoint App.save_button_rect pos = true).
Proof. apply AppMore.handle_event_screenshots. Qed.

(** X12: pausing and resuming is a round trip. In the RUNNING state with
    the stream started, a click on the pause button followed by a click on
    the resume button gives back the very same state of [main]. *)
Theorem X12_pause_resume_round_trip (m : App.Main) (p1 p2 : Z * Z) :
  App.app_state m = App.RUNNING ->
  App.stream_agrees m ->
  Rect.collidepoint App.stop_button_rect p1 = true ->
  Rect.collidepoint App.resume_button_rect p2 = true ->
  App.handle_event (App.handle_event m (App.MOUSEBUTTONDOWN p1))
                   (App.MOUSEBUTTONDOWN p2) = m.
Proof.
  destruct m as [a chunks total run active st scr shots]. simpl.
  intros -> Hag H1 H2. unfold App.stream_agrees in Hag. simpl in Hag.
  destruct Hag as [-> ->].
  assert (Rect.collidepoint App.save_button_rect p2 = false) as H3.
  { destruct (Rect.collidepoint App.save_button_rect p2) eqn:E; [|done].
    change App.save_button_rect with App.stop_button_rect in E.
    apply AppMore.stop_resume_disjoint in E. congruence. }
  unfold App.handle_event. simpl. rewrite H1. simpl. by rewrite H3, H2.
Qed.

Lemma X12_pause_resume_round_trip_witness :
  (App.app_state Scenario.recording = App.RUNNING
   /\ App.stream_agrees Scenario.recording
   /\ Rect.collidepoint App.stop_button_rect (1000, 750) = true
   /\ Rect.collidepoint App.resume_button_rect (800, 750) = true)
  /\ App.handle_event
       (App.handle_event Scenario.recording (App.MOUSEBUTTONDOWN (1000, 750)))
       (App.MOUSEBUTTONDOWN (800, 750)) = Scenario.recording.
Proof.
  assert (App.stream_agrees Scenario.recording) as Hag by (split; reflexivity).
  split; [split; [reflexivity|split; [exact Hag|split; reflexivity]]|].
  exact (X12_pause_resume_round_trip Scenario.recording (1000, 750) (800, 750)
           eq_refl Hag eq_refl eq_refl).
Defined.

(** X13: an iteration in the FINISHED state without any click is idle: it
    takes nothing from the text queue and leaves the globals, the state,
    the stream, the transcript, the count and the screenshots as they
    are. *)
Theorem X13_paused_frame_is_idle (AudioChunk : Type)
    (NRCLex_affect_dict : string -> gmap string (list string))
    (pixel_font : Font.t) (events : list App.Event) (stream_opens : bool)
    (w : Pipeline.World AudioChunk) (m : App.Main) :
  App.app_state m = App.FINISHED ->
  App.stream_agrees m ->
  forallb (fun e => negb (App.is_click e)) events = true ->
  let after := App.frame NRCLex_affect_dict pixel_font events stream_opens (w, m) in
  fst after = w
  /\ App.app_state (snd after) = App.FINISHED
  /\ App.stream (snd after) = App.stream m
  /\ App.total_chars (snd after) = App.total_chars m
  /\ App.word_color_chunks (snd after) = App.word_color_chunks m
  /\ App.screenshots (snd after) = App.screenshots m.
Proof.
  intros Hfin Hag Hnc after. subst after.
  destruct (FrameSpec.frame_split NRCLex_affect_dict pixel_font events stream_opens w m)
    as (m3 & -> & [Ht Hc] & Hshots & Hag3 & _ & Hsame & _).
  rewrite (AppMore.handle_events_no_click events m Hnc) in Hsame, Hshots
    by (rewrite Hfin; done).
  destruct (Hsame Hfin) as (Ha3 & _ & Hs3 & _). simpl in Ha3, Hs3, Hshots.
  specialize (Hag3 Hag). rewrite Ha3, Hfin.
  destruct (FrameFacts.running_or_finished_spec NRCLex_affect_dict pixel_font w m3 Hag3)
    as (taken & _ & Hidle & _ & Htot & Hch & Hag' & _ & _ & Hsh' & Hst').
  destruct Hidle as [-> Hw]; [by rewrite Ha3, Hfin|].
  assert (App.app_state (snd (App.running_or_finished NRCLex_affect_dict pixel_font w m3))
          = App.FINISHED) as Hafter.
  { destruct Hst' as [->|[Hrun _]]; [by rewrite Ha3|]. congruence. }
  split; [exact Hw|]. split; [exact Hafter|].
  split.
  { unfold App.stream_agrees in Hag', Hag. rewrite Hafter in Hag'. rewrite Hfin in Hag.
    destruct Hag' as [-> _]. by destruct Hag as [-> _]. }
  rewrite Htot, Hch, Hsh', Ht, Hc, Hshots. simpl. rewrite app_nil_r.
  split; [lia|done].
Qed.

Lemma X13_paused_frame_is_idle_witness :
  let paused := snd Scenario.paused_by_overflow in
  let w := fst Scenario.paused_by_overflow in
  let after := App.frame Scenario.happy_analysis Scenario.mono
                 [App.KEYDOWN; App.OtherEvent] true (w, paused) in
  (App.app_state paused = App.FINISHED
   /\ App.stream_agrees paused
   /\ forallb (fun e => negb (App.is_click e)) [App.KEYDOWN; App.OtherEvent] = true)
  /\ fst after = w
  /\ App.total_chars (snd after) = 240.
Proof.
  intros paused w after.
  assert (App.app_state paused = App.FINISHED) as H1 by (vm_compute; reflexivity).
  assert (App.stream_agrees paused) as H2.
  { unfold App.stream_agrees. rewrite H1. split; vm_compute; reflexivity. }
  destruct (X13_paused_frame_is_idle Scenario.Chunk Scenario.happy_analysis
              Scenario.mono [App.KEYDOWN; App.OtherEvent] true w paused H1 H2 eq_refl)
    as (Hw & _ & _ & Ht & _).
  split; [split; [exact H1|split; [exact H2|reflexivity]]|].
  split; [exact Hw|]. etrans; [exact Ht|]. vm_compute. reflexivity.
Defined.

(** X14: the grey value with which the person is drawn is a colour value:
    for every count that is not negative [int(255 * lightness_level)] lies
    between 0 and 255; it is 0 at the start and 255 from the target of 500
    characters on. *)
Theorem X14_person_colour_in_range (total : Z) :
  0 <= total ->
  0 <= App.int_of_Q (255 * App.lightness_level total) <= 255
  /\ App.int_of_Q (255 * App.lightness_level 0) = 0
  /\ App.int_of_Q
       (255 * App.lightness_level (App.TARGET_CHARS_FOR_RELEASE + total)) = 255.
Proof.
  intros H. split; [by apply AppMore.color_val_range|]. split; [reflexivity|].
  apply AppMore.color_val_full. lia.
Qed.

Lemma X14_person_colour_in_range_witness :
  0 <= 250
  /\ 0 <= App.int_of_Q (255 * App.lightness_level 250) <= 255
  /\ App.int_of_Q (255 * App.lightness_level 750) = 255.
Proof.
  assert (0 <= 250) as H by lia.
  destruct (X14_person_colour_in_range 250 H) as (H1 & _ & H2).
  split; [exact H|]. split; [exact H1|exact H2].
Defined.

(** X15: the worker of TBD/app.py never stops on an empty queue (the
    timeout sends it round the loop again); over chunks that all transcribe
    it prints the non-empty stripped texts in the order of the chunks and
    is still alive after the last; the first error of the transcription
    function kills it with the rest of the queue untouched, for good. *)
Theorem X15_tbd_worker (AudioChunk : Type)
    (transcribe : AudioChunk -> option (list string)) :
  (forall n k printed,
      TBD.worker_run transcribe n (TBD.mkWorld (Queue.mk k []) printed true)
      = TBD.mkWorld (Queue.mk k []) printed true)
  /\ (forall chunks k rest printed,
      Forall (fun c => is_Some (transcribe c)) chunks ->
      TBD.worker_run transcribe (length chunks)
        (TBD.mkWorld (Queue.mk k (chunks ++ rest)) printed true)
      = TBD.mkWorld (Queue.mk k rest)
          (printed ++ Pipeline.fragments transcribe chunks) true)
  /\ (forall c k rest printed n,
      transcribe c = None ->
      TBD.worker_run transcribe (S n)
        (TBD.mkWorld (Queue.mk k (c :: rest)) printed true)
      = TBD.mkWorld (Queue.mk k rest) printed false).
Proof.
  split; [|split].
  - intros. apply TBDFacts.run_idle.
  - intros. by apply TBDFacts.run_chunks.
  - intros c k rest printed n Hc. simpl.
    unfold TBD.worker_step at 1. simpl. rewrite Hc.
    by apply TBDFacts.run_dead.
Qed.

Lemma X15_tbd_worker_witness :
  (Forall (fun c => is_Some (Scenario.toy_transcribe c)) [[1]; []; [1; 2]]
   /\ TBD.worker_run Scenario.toy_transcribe 3
        (TBD.mkWorld (Queue.mk 0 [[1]; []; [1; 2]; [5; 6; 7]]) [] true)
      = TBD.mkWorld (Queue.mk 0 [[5; 6; 7]])
          ["I am happy"; "so it goes"]%string true)
  /\ (Scenario.toy_transcribe [5; 6; 7] = None
      /\ TBD.worker_run Scenario.toy_transcribe 4
           (TBD.mkWorld (Queue.mk 0 [[5; 6; 7]; [1]]) [] true)
         = TBD.mkWorld (Queue.mk 0 [[1]]) [] false).
Proof.
  destruct (X15_tbd_worker Scenario.Chunk Scenario.toy_transcribe)
    as (_ & Hrun & Herr).
  assert (Forall (fun c => is_Some (Scenario.toy_transcribe c)) [[1]; []; [1; 2]])
    as Hall by (repeat constructor; eexists; reflexivity).
  split.
  - split; [exact Hall|]. exact (Hrun [[1]; []; [1; 2]] 0 [[5; 6; 7]] [] Hall).
  - split; [reflexivity|]. exact (Herr [5; 6; 7] 0 [[1]] [] 3%nat eq_refl).
Defined.

(** X16: in the LOADING state the main loop waits for the model-ready
    signal: while it is not set an iteration stays in LOADING, creates no
    stream and leaves the globals alone. Once it is set, a stream that
    fails to start ends the loop, and one that starts makes the stream
    active with state and stream in agreement. *)
Theorem X16_loading_waits_for_model (AudioChunk : Type)
    (NRCLex_affect_dict : string -> gmap string (list string))
    (pixel_font : Font.t) (events : list App.Event) (stream_opens : bool)
    (w : Pipeline.World AudioChunk) (m : App.Main) :
  App.app_state m = App.LOADING ->
  App.stream_agrees m ->
  let after := App.frame NRCLex_affect_dict pixel_font events stream_opens (w, m) in
  if Pipeline.model_loaded w then
    if stream_opens then
      App.stream_active (snd after) = true /\ App.stream_agrees (snd after)
      /\ App.app_state (snd after) <> App.LOADING
    else
      App.running (snd after) = false /\ App.app_state (snd after) = App.LOADING
      /\ App.stream (snd after) = App.NoStream /\ fst after = w
  else
    App.app_state (snd after) = App.LOADING
    /\ App.stream (snd after) = App.NoStream
    /\ App.stream_active (snd after) = false
    /\ fst after = w.
Proof.
  intros Hl Hag after. subst after. unfold App.frame.
  rewrite (LoadingFacts.handle_events_in_loading events m Hl).
  unfold App.stream_agrees in Hag. rewrite Hl in Hag. destruct Hag as [Hst Hact].
  destruct m as [a chunks total run active st scr shots]. simpl in *. subst.
  unfold App.loading. simpl.
  destruct (Pipeline.model_loaded w) eqn:Hm; [destruct stream_opens|]; simpl;
    try done.
  set (m3 := App.mkMain App.RUNNING _ _ _ _ _ _ _).
  destruct (FrameFacts.running_or_finished_spec NRCLex_affect_dict pixel_font w m3)
    as (taken & _ & _ & _ & _ & _ & Hag' & _ & Hact' & _ & Hst').
  { by split. }
  split; [exact Hact'|]. split; [exact Hag'|].
  destruct Hst' as [->|[_ ->]]; done.
Qed.

Lemma X16_loading_waits_for_model_witness :
  let m := App.handle_event App.initial App.KEYDOWN in
  let after := App.frame Scenario.happy_analysis Scenario.mono [App.OtherEvent] true
                 (Pipeline.initial : Pipeline.World Scenario.Chunk, m) in
  (App.app_state m = App.LOADING /\ App.stream_agrees m)
  /\ App.app_state (snd after) = App.LOADING
  /\ App.stream (snd after) = App.NoStream.
Proof.
  intros m after.
  assert (App.stream_agrees m) as Hag by (split; reflexivity).
  pose proof (X16_loading_waits_for_model Scenario.Chunk Scenario.happy_analysis
                Scenario.mono [App.OtherEvent] true Pipeline.initial m eq_refl Hag)
    as H.
  cbv zeta in H.
  change (Pipeline.model_loaded (@Pipeline.initial Scenario.Chunk)) with false in H.
  cbv iota in H. destruct H as (H1 & H2 & _).
  split; [split; [reflexivity|exact Hag]|]. split; [exact H1|exact H2].
Defined.
